(** * torchfilter: the differentiable particle filter

    A shallow embedding of [torchfilter/filters/_particle_filter.py]
    (class [ParticleFilter]) and the properties of its belief update.

    Conventions of the embedding.
    - A floating point tensor is a nested list of real numbers: the
      arithmetic of the filter ([log], [exp], [logsumexp]) is read over
      [R], so rounding and the values [inf] and [nan] are outside the model.
    - A nested list stands for a rectangular tensor.  An empty axis hides
      the sizes of the axes below it, so shapes are read faithfully when the
      batch size and the particle count are positive.
    - Python exceptions are values of [exn]; a method is a function from the
      object to a result and the object left behind, so that what was
      assigned to [self] before an exception stays assigned.
    - Random draws ([randperm], [Categorical.sample], [rsample],
      [MultivariateNormal.sample]) and the two collaborating models are
      parameters of the development.  A draw that builds a distribution can
      raise, and the calls of [randperm] within a timestep are numbered:
      each call is a draw of its own. *)

From Stdlib Require Import String.
From Stdlib Require Import List ZArith Reals Lra Lia Bool Permutation.
Import ListNotations.

Set Implicit Arguments.

(** ** Exceptions and results *)

Inductive exn : Type :=
| AssertionError (msg : string)
| RuntimeError (msg : string)
| ZeroDivisionError
| ValueError (msg : string).

Inductive result (A : Type) : Type :=
| Ok (a : A)
| Raise (e : exn).

Arguments Ok {A} a.
Arguments Raise {A} e.

Definition rbind {A B : Type} (r : result A) (k : A -> result B) : result B :=
  match r with
  | Ok a => k a
  | Raise e => Raise e
  end.

Declare Scope result_scope.
Delimit Scope result_scope with result.
Notation "x <- r ;; k" := (rbind r (fun x => k))
  (at level 61, r at next level, right associativity) : result_scope.

Definition rassert (b : bool) (msg : string) : result unit :=
  if b then Ok tt else Raise (AssertionError msg).

Definition is_ok {A : Type} (r : result A) : bool :=
  match r with Ok _ => true | Raise _ => false end.

(** ** Lists with positions *)

Fixpoint mapi_from {A B : Type} (f : nat -> A -> B) (n : nat) (l : list A)
  : list B :=
  match l with
  | [] => []
  | a :: l' => f n a :: mapi_from f (S n) l'
  end.

Definition mapi {A B : Type} (f : nat -> A -> B) (l : list A) : list B :=
  mapi_from f 0 l.

Fixpoint sequence {A : Type} (l : list (result A)) : result (list A) :=
  match l with
  | [] => Ok []
  | r :: l' =>
      match r with
      | Ok a =>
          match sequence l' with
          | Ok t => Ok (a :: t)
          | Raise e => Raise e
          end
      | Raise e => Raise e
      end
  end.

Definition mapiM {A B : Type} (f : nat -> A -> result B) (l : list A)
  : result (list B) :=
  sequence (mapi f l).

(** Elementwise combination of two lists of one length; torch raises on
    operands whose sizes differ (broadcasting of other shapes is not
    modelled). *)
Fixpoint zipM {A B C : Type} (f : A -> B -> result C) (l1 : list A)
  (l2 : list B) : result (list C) :=
  match l1, l2 with
  | [], [] => Ok []
  | a :: l1', b :: l2' =>
      match f a b with
      | Ok c =>
          match zipM f l1' l2' with
          | Ok t => Ok (c :: t)
          | Raise e => Raise e
          end
      | Raise e => Raise e
      end
  | _, _ => Raise (RuntimeError "The size of tensor a must match the size of tensor b")
  end.

(** ** Tensors *)

Definition tensor1 := list R.
Definition tensor2 := list (list R).
Definition tensor3 := list (list (list R)).

(** Index tensors ([dtype=torch.long]) of the ranks the filter builds. *)
Inductive LongTensor : Type :=
| Long1 (v : list nat)
| Long2 (v : list (list nat))
| Long3 (v : list (list (list nat))).

Definition long_dim (t : LongTensor) : nat :=
  match t with
  | Long1 _ => 1
  | Long2 _ => 2
  | Long3 _ => 3
  end.

(** [t.shape] of a rank 2 and of a rank 3 tensor. *)
Definition shape2 {A : Type} (t : list (list A)) : nat * nat :=
  (length t, length (hd [] t)).

Definition shape3 {A : Type} (t : list (list (list A))) : nat * nat * nat :=
  (length t, length (hd [] t), length (hd [] (hd [] t))).

(** [t.shape == (n, m)] and [t.shape == (n, m, d)]. *)
Definition has_shape2b {A : Type} (t : list (list A)) (n m : nat) : bool :=
  (length t =? n) && forallb (fun row => length row =? m) t.

Definition has_shape3b {A : Type} (t : list (list (list A))) (n m d : nat)
  : bool :=
  (length t =? n)
  && forallb (fun row => (length row =? m)
                         && forallb (fun s => length s =? d) row) t.

Definition has_shape2 {A : Type} (t : list (list A)) (n m : nat) : Prop :=
  length t = n /\ forall row, In row t -> length row = m.

Definition has_shape3 {A : Type} (t : list (list (list A))) (n m d : nat)
  : Prop :=
  length t = n
  /\ forall row, In row t ->
       length row = m /\ forall s, In s row -> length s = d.

Definition lookup2 {A : Type} (t : list (list A)) (i j : nat) : option A :=
  match nth_error t i with
  | Some row => nth_error row j
  | None => None
  end.

Definition lookup3 {A : Type} (t : list (list (list A))) (i j k : nat)
  : option A :=
  match nth_error t i with
  | Some row =>
      match nth_error row j with
      | Some s => nth_error s k
      | None => None
      end
  | None => None
  end.

Definition index_error {A : Type} : result A :=
  Raise (RuntimeError "index out of range in gather").

Definition of_option {A : Type} (o : option A) : result A :=
  match o with
  | Some a => Ok a
  | None => index_error
  end.

(** [torch.gather(input, 1, index)] on a rank 2 input:
    [out[i][j] = input[i][index[i][j]]]. *)
Definition gather2 (input : tensor2) (index : list (list nat))
  : result tensor2 :=
  mapiM (fun i row => mapiM (fun _ ix => of_option (lookup2 input i ix)) row)
        index.

(** [torch.gather(input, 1, index)] on a rank 3 input:
    [out[i][j][k] = input[i][index[i][j][k]][k]]. *)
Definition gather3 (input : tensor3) (index : list (list (list nat)))
  : result tensor3 :=
  mapiM (fun i row =>
           mapiM (fun _ cell =>
                    mapiM (fun k ix => of_option (lookup3 input i ix k)) cell)
                 row)
        index.

(** [torch.gather] requires the index to have as many dimensions as the
    input and raises otherwise. *)
Definition torch_gather3 (input : tensor3) (index : LongTensor)
  : result tensor3 :=
  match index with
  | Long3 v => gather3 input v
  | _ => Raise (RuntimeError
           "Index tensor must have the same number of dimensions as input tensor")
  end.

Definition torch_gather2 (input : tensor2) (index : LongTensor)
  : result tensor2 :=
  match index with
  | Long2 v => gather2 input v
  | _ => Raise (RuntimeError
           "Index tensor must have the same number of dimensions as input tensor")
  end.

(** Row [i] of the result picks, in row [i] of [t], the entries at the
    positions listed in row [i] of [index]: what both gathers of the filter
    compute on well-shaped operands. *)
Definition select_rows {A : Type} (dflt : A) (index : list (list nat))
  (t : list (list A)) : list (list A) :=
  mapi (fun i idxrow => map (fun ix => nth ix (nth i t []) dflt) idxrow) index.

(** [index[:, :, None].expand((N, M, d))]. *)
Definition expand_last (index : list (list nat)) (d : nat)
  : list (list (list nat)) :=
  map (map (fun ix => repeat ix d)) index.

(** [t.transpose(0, 1)] of a tensor whose second axis has size [n]. *)
Definition transpose01 {A : Type} (dflt : A) (n : nat) (t : list (list A))
  : list (list A) :=
  map (fun i => map (fun row => nth i row dflt) t) (seq 0 n).

(** ** Log-domain arithmetic *)

Definition rsum (l : list R) : R := fold_right Rplus 0%R l.

(** [torch.logsumexp(row)] along the particle axis. *)
Definition logsumexp (row : list R) : R := ln (rsum (map exp row)).

(** [w - torch.logsumexp(w, dim=1, keepdim=True)]. *)
Definition normalize_log_weights (w : tensor2) : tensor2 :=
  map (fun row => map (fun x => (x - logsumexp row)%R) row) w.

(** [float(-np.log(M))]. *)
Definition neg_log (M : nat) : R := (- ln (INR M))%R.

(** [t.new_full((n, m), v)]. *)
Definition new_full (n m : nat) (v : R) : tensor2 := repeat (repeat v m) n.

(** [x.new_zeros((n, m), dtype=torch.long)]; a negative size raises. *)
Definition new_zeros_long (n : nat) (m : Z) : result (list (list nat)) :=
  if (m <? 0)%Z
  then Raise (RuntimeError "Trying to create tensor with negative dimension")
  else Ok (repeat (repeat 0 (Z.to_nat m)) n).

(** [torch.arange(M).repeat(k)]. *)
Definition arange_repeat (M k : nat) : list nat := concat (repeat (seq 0 M) k).

(** [row[lo:hi] = v] for one row of a slice assignment [t[:, lo:hi] = v[None, :]]:
    the value must have the size of the slice, or size one. *)
Definition set_slice (lo hi : nat) (v : list nat) (row : list nat)
  : result (list nat) :=
  let hi' := Nat.min hi (length row) in
  if length v =? hi' - lo
  then Ok (firstn lo row ++ v ++ skipn hi' row)
  else match v with
       | [x] => Ok (firstn lo row ++ repeat x (hi' - lo) ++ skipn hi' row)
       | _ => Raise (RuntimeError "shape mismatch in slice assignment")
       end.

Definition set_columns (lo hi : nat) (v : list nat) (t : list (list nat))
  : result (list (list nat)) :=
  mapiM (fun _ row => set_slice lo hi v row) t.

(** [t.reshape(-1, d)] of a rank 3 tensor: the first two axes are flattened. *)
Definition flatten01 (t : tensor3) : tensor2 := concat t.

Fixpoint chunks {A : Type} (n m : nat) (l : list A) : list (list A) :=
  match n with
  | 0 => []
  | S n' => firstn m l :: chunks n' m (skipn m l)
  end.

(** [t.view(n, m, d)] of a rank 2 tensor: the entries are read in row-major
    order and regrouped; only the number of entries must agree. *)
Definition view3 (n m d : nat) (t : tensor2) : result tensor3 :=
  let flat := concat t in
  if length flat =? n * m * d
  then Ok (chunks n m (chunks (n * m) d flat))
  else Raise (RuntimeError "shape is invalid for input size").

(** [torch.repeat_interleave(t, repeats=M, dim=0)]. *)
Definition repeat_interleave {A : Type} (M : nat) (t : list A) : list A :=
  flat_map (fun c => repeat c M) t.

(** Elementwise sum of two tensors of one shape. *)
Definition tensor2_zip (f : R -> R -> R) (a b : tensor2) : result tensor2 :=
  zipM (zipM (fun x y => Ok (f x y))) a b.

(** [torch.argmax(row)]: the first position of a maximal value. *)
Fixpoint argmax_from (best_i : nat) (best : R) (i : nat) (l : list R) : nat :=
  match l with
  | [] => best_i
  | x :: l' =>
      if Rlt_dec best x
      then argmax_from i x (S i) l'
      else argmax_from best_i best (S i) l'
  end.

Definition argmax_row (row : list R) : result nat :=
  match row with
  | [] => Raise (RuntimeError "argmax(): expected reduction dim to have non-zero size")
  | x :: l => Ok (argmax_from 0 x 1 l)
  end.

(** [torch.argmax(w, dim=1)]. *)
Definition argmax_dim1 (w : tensor2) : result (list nat) :=
  mapiM (fun _ row => argmax_row row) w.

Definition vadd (a b : list R) : list R :=
  map (fun p => (fst p + snd p)%R) (combine a b).

(** [torch.sum(t, dim=1)] of a tensor of shape [(N, M, d)]. *)
Definition sum_dim1 (d : nat) (t : tensor3) : tensor2 :=
  map (fun row => fold_right vadd (repeat 0%R d) row) t.

(** [states * torch.exp(w.unsqueeze(2))]. *)
Definition weight_states (states : tensor3) (w : tensor2) : result tensor3 :=
  zipM (zipM (fun st lw => Ok (map (fun x => (x * exp lw)%R) st))) states w.

(** ** The filter *)

Section Filter.

(** One entry of a control batch and of an observation batch. *)
Variables Ctrl Obs : Type.

(** [torchfilter.base.DynamicsModel]: flattened states and controls to
    predicted means and lower triangular covariance factors. *)
Record DynamicsModel : Type := {
  dm_state_dim : nat;
  dm_forward : tensor2 -> list Ctrl -> result (tensor2 * tensor3)
}.

(** [torchfilter.base.ParticleFilterMeasurementModel]: particle states and
    observations to log-likelihoods of shape [(N, M)]. *)
Record ParticleFilterMeasurementModel : Type := {
  mm_state_dim : nat;
  mm_forward : tensor3 -> list Obs -> result tensor2
}.

(** The random draws of torch. *)
Record Random : Type := {
  (** [torch.randperm(M)]: the first argument is the number of the call
      within the timestep, counted from 0; two calls are two draws *)
  randperm : nat -> nat -> list nat;
  (** [MultivariateNormal(loc, scale_tril).rsample()]; raises when the
      distribution rejects its arguments (a scale factor that is not lower
      triangular with a positive diagonal, an empty batch) *)
  rsample : tensor2 -> tensor3 -> result tensor2;
  (** [MultivariateNormal(mean, covariance).sample((M,))], shape [(M, N, d)];
      raises when the covariance is not positive definite *)
  mvn_sample : tensor2 -> tensor3 -> nat -> result tensor3;
  (** [Categorical(logits).sample((k,))], shape [(k, N)] *)
  categorical_sample : tensor2 -> nat -> result (list (list nat))
}.

Variable rng : Random.

Record ParticleFilter : Type := {
  state_dim : nat;
  dynamics_model : DynamicsModel;
  measurement_model : ParticleFilterMeasurementModel;
  num_particles : Z;
  resample : option bool;
  soft_resample_alpha : R;
  estimation_method : string;
  particle_states : tensor3;
  particle_log_weights : tensor2;
  _initialized : bool;
  (** [torch.nn.Module.training] *)
  training : bool
}.

Definition set_particle_states (t : tensor3) (self : ParticleFilter)
  : ParticleFilter :=
  {| state_dim := state_dim self;
     dynamics_model := dynamics_model self;
     measurement_model := measurement_model self;
     num_particles := num_particles self;
     resample := resample self;
     soft_resample_alpha := soft_resample_alpha self;
     estimation_method := estimation_method self;
     particle_states := t;
     particle_log_weights := particle_log_weights self;
     _initialized := _initialized self;
     training := training self |}.

Definition set_particle_log_weights (w : tensor2) (self : ParticleFilter)
  : ParticleFilter :=
  {| state_dim := state_dim self;
     dynamics_model := dynamics_model self;
     measurement_model := measurement_model self;
     num_particles := num_particles self;
     resample := resample self;
     soft_resample_alpha := soft_resample_alpha self;
     estimation_method := estimation_method self;
     particle_states := particle_states self;
     particle_log_weights := w;
     _initialized := _initialized self;
     training := training self |}.

Definition set_initialized (b : bool) (self : ParticleFilter)
  : ParticleFilter :=
  {| state_dim := state_dim self;
     dynamics_model := dynamics_model self;
     measurement_model := measurement_model self;
     num_particles := num_particles self;
     resample := resample self;
     soft_resample_alpha := soft_resample_alpha self;
     estimation_method := estimation_method self;
     particle_states := particle_states self;
     particle_log_weights := particle_log_weights self;
     _initialized := b;
     training := training self |}.

(** [self.estimation_method = name] and [self.num_particles = n], from
    outside the class. *)
Definition set_estimation_method (name : string) (self : ParticleFilter)
  : ParticleFilter :=
  {| state_dim := state_dim self;
     dynamics_model := dynamics_model self;
     measurement_model := measurement_model self;
     num_particles := num_particles self;
     resample := resample self;
     soft_resample_alpha := soft_resample_alpha self;
     estimation_method := name;
     particle_states := particle_states self;
     particle_log_weights := particle_log_weights self;
     _initialized := _initialized self;
     training := training self |}.

Definition set_num_particles (n : Z) (self : ParticleFilter)
  : ParticleFilter :=
  {| state_dim := state_dim self;
     dynamics_model := dynamics_model self;
     measurement_model := measurement_model self;
     num_particles := n;
     resample := resample self;
     soft_resample_alpha := soft_resample_alpha self;
     estimation_method := estimation_method self;
     particle_states := particle_states self;
     particle_log_weights := particle_log_weights self;
     _initialized := _initialized self;
     training := training self |}.

(** A method runs on the object and leaves an object behind, also when it
    raises. *)
Definition method (A : Type) : Type :=
  ParticleFilter -> result A * ParticleFilter.

Definition mret {A : Type} (a : A) : method A := fun self => (Ok a, self).

Definition mbind {A B : Type} (m : method A) (k : A -> method B) : method B :=
  fun self =>
    match m self with
    | (Ok a, self') => k a self'
    | (Raise e, self') => (Raise e, self')
    end.

Definition lift {A : Type} (r : result A) : method A := fun self => (r, self).

Definition read {A : Type} (f : ParticleFilter -> A) : method A :=
  fun self => (Ok (f self), self).

Definition assign (f : ParticleFilter -> ParticleFilter) : method unit :=
  fun self => (Ok tt, f self).

Definition massert (b : bool) (msg : string) : method unit :=
  lift (rassert b msg).

(** The settings of the filter: everything but the belief. *)
Definition same_settings (a b : ParticleFilter) : Prop :=
  state_dim a = state_dim b
  /\ dynamics_model a = dynamics_model b
  /\ measurement_model a = measurement_model b
  /\ num_particles a = num_particles b
  /\ resample a = resample b
  /\ soft_resample_alpha a = soft_resample_alpha b
  /\ estimation_method a = estimation_method b
  /\ _initialized a = _initialized b
  /\ training a = training b.

Definition keeps_settings {A : Type} (m : method A) : Prop :=
  forall self r self', m self = (r, self') -> same_settings self self'.

Declare Scope method_scope.
Delimit Scope method_scope with method.
Notation "x <- m ;; k" := (mbind m (fun x => k))
  (at level 61, m at next level, right associativity) : method_scope.
Notation "m ;;; k" := (mbind m (fun _ => k))
  (at level 61, right associativity) : method_scope.

Local Open Scope method_scope.

(** [ParticleFilter.__init__] *)
Definition __init__ (dynamics_model : DynamicsModel)
  (measurement_model : ParticleFilterMeasurementModel)
  (num_particles : Z) (resample : option bool) (soft_resample_alpha : R)
  (estimation_method : string) : result ParticleFilter :=
  (_ <- rassert (dm_state_dim dynamics_model =? mm_state_dim measurement_model)
                "dynamics_model.state_dim == measurement_model.state_dim" ;;
   let state_dim := dm_state_dim dynamics_model in
   _ <- rassert (String.eqb estimation_method "weighted_average"
                 || String.eqb estimation_method "argmax")
                "estimation_method in (weighted_average, argmax)" ;;
   Ok {| state_dim := state_dim;
         dynamics_model := dynamics_model;
         measurement_model := measurement_model;
         num_particles := num_particles;
         resample := resample;
         soft_resample_alpha := soft_resample_alpha;
         estimation_method := estimation_method;
         particle_states := [];
         particle_log_weights := [];
         _initialized := false;
         training := true |})%result.

(** [ParticleFilter.initialize_beliefs] *)
Definition initialize_beliefs (mean : tensor2) (covariance : tensor3)
  : method unit :=
  let N := length mean in
  d <- read state_dim ;;
  massert (has_shape2b mean N d) "mean.shape == (N, self.state_dim)" ;;;
  massert (has_shape3b covariance N d d)
          "covariance.shape == (N, self.state_dim, self.state_dim)" ;;;
  M <- read num_particles ;;
  lift (if (M <? 0)%Z
        then Raise (RuntimeError "Trying to create tensor with negative dimension")
        else Ok tt) ;;;
  let M := Z.to_nat M in
  (* Sample particles *)
  samples <- lift (mvn_sample rng mean covariance M) ;;
  assign (set_particle_states (transpose01 [] N samples)) ;;;
  states <- read particle_states ;;
  massert (has_shape3b states N M d)
          "self.particle_states.shape == (N, M, self.state_dim)" ;;;
  (* Normalize weights *)
  assign (set_particle_log_weights (new_full N M (neg_log M))) ;;;
  w <- read particle_log_weights ;;
  massert (has_shape2b w N M) "self.particle_log_weights.shape == (N, M)" ;;;
  (* Set initialized flag *)
  assign (set_initialized true).

(** The index tensor of the particle count adjustment in [forward]
    (the lines from [indices = ...new_zeros] to the [randperm] assignment),
    for [N] rows, [M] current particles and the target [num_particles].
    [torch.randperm] is called once, outside any loop over the rows: it is
    call number 0 of the timestep. *)
Definition rebalance_indices (N M : nat) (num_particles : Z)
  : result (list (list nat)) :=
  (indices <- new_zeros_long N num_particles ;;
   (* for the beginning part we copy particles directly *)
   _ <- (if M =? 0 then Raise ZeroDivisionError else Ok tt) ;;
   let copy_count := (num_particles / Z.of_nat M * Z.of_nat M)%Z in
   indices <- (if (0 <? copy_count)%Z
               then set_columns 0 (Z.to_nat copy_count)
                      (arange_repeat M (Z.to_nat (copy_count / Z.of_nat M)))
                      indices
               else Ok indices) ;;
   (* for remaining particles, we sample without replacement *)
   let remaining_count := (num_particles - copy_count)%Z in
   _ <- rassert (0 <=? remaining_count)%Z "remaining_count >= 0" ;;
   if (0 <? remaining_count)%Z
   then set_columns (Z.to_nat copy_count) (Z.to_nat num_particles)
          (firstn (Z.to_nat remaining_count) (randperm rng 0 M))
          indices
   else Ok indices)%result.

(** The row of positions that [rebalance_indices] is shown to build for
    every batch row: whole cyclic copies, then the head of the permutation. *)
Definition rebalance_row (perm : list nat) (M n : nat) : list nat :=
  arange_repeat M (n / M) ++ firstn (n mod M) perm.

(** The body of [if not resample and self.num_particles != M] in [forward];
    returns the new value of the local [M]. *)
Definition rebalance (N M d : nat) : method nat :=
  np <- read num_particles ;;
  indices <- lift (rebalance_indices N M np) ;;
  (* Gather new particles, weights *)
  let M := Z.to_nat np in
  states <- read particle_states ;;
  states' <- lift (torch_gather3 states (Long3 (expand_last indices d))) ;;
  assign (set_particle_states states') ;;;
  w <- read particle_log_weights ;;
  w' <- lift (torch_gather2 w (Long2 indices)) ;;
  assign (set_particle_log_weights w') ;;;
  states <- read particle_states ;;
  massert (has_shape3b states N M d)
          "self.particle_states.shape == (N, self.num_particles, state_dim)" ;;;
  w <- read particle_log_weights ;;
  massert (has_shape2b w N M)
          "self.particle_log_weights.shape == (N, self.num_particles)" ;;;
  (* Normalize particle weights to sum to 1.0 *)
  assign (set_particle_log_weights (normalize_log_weights w)) ;;;
  mret M.

(** Propagation of the particles through the dynamics model. *)
Definition propagate (controls : list Ctrl) (N M : nat) : method unit :=
  d <- read state_dim ;;
  states <- read particle_states ;;
  let reshaped_states := flatten01 states in
  let reshaped_controls := repeat_interleave M controls in
  dyn <- read dynamics_model ;;
  out <- lift (dm_forward dyn reshaped_states reshaped_controls) ;;
  let '(predicted_states, scale_trils) := out in
  samples <- lift (rsample rng predicted_states scale_trils) ;;
  states' <- lift (view3 N M d samples) ;;
  assign (set_particle_states states') ;;;
  states <- read particle_states ;;
  massert (has_shape3b states N M d)
          "self.particle_states.shape == (N, M, self.state_dim)".

(** Re-weighting with the observations, then normalization. *)
Definition reweight (observations : list Obs) : method unit :=
  w <- read particle_log_weights ;;
  meas <- read measurement_model ;;
  states <- read particle_states ;;
  ll <- lift (mm_forward meas states observations) ;;
  w' <- lift (tensor2_zip Rplus w ll) ;;
  assign (set_particle_log_weights w') ;;;
  (* Normalize particle weights to sum to 1.0 *)
  w <- read particle_log_weights ;;
  assign (set_particle_log_weights (normalize_log_weights w)).

(** The value bound to [state_estimates]: the sum has rank 2, a gather has
    the rank of its index. *)
Inductive Estimate : Type :=
| Est2 (t : tensor2)
| Est3 (t : tensor3).

(** The state estimate ([# Compute output]). *)
Definition estimate : method Estimate :=
  method_name <- read estimation_method ;;
  w <- read particle_log_weights ;;
  states <- read particle_states ;;
  d <- read state_dim ;;
  if String.eqb method_name "weighted_average" then
    weighted_states <- lift (weight_states states w) ;;
    mret (Est2 (sum_dim1 d weighted_states))
  else if String.eqb method_name "argmax" then
    best_indices <- lift (argmax_dim1 w) ;;
    lift (r <- torch_gather3 states (Long1 best_indices) ;; Ok (Est3 r))%result
  else
    lift (Raise (AssertionError "Unsupported estimation method!")).

(** The sampling logits of soft resampling: the log-sum-exp over the stack of
    the two scaled components. *)
Definition soft_sample_logits (alpha : R) (w uniform_log_weights : tensor2)
  : result tensor2 :=
  tensor2_zip (fun a b => logsumexp [a; b])
    (map (map (fun x => (x + ln alpha)%R)) w)
    (map (map (fun x => (x + ln (1 - alpha))%R)) uniform_log_weights).

(** [ParticleFilter._resample] *)
Definition _resample : method unit :=
  states <- read particle_states ;;
  let '(N, M, d) := shape3 states in
  np <- read num_particles ;;
  lift (if (np <? 0)%Z
        then Raise (RuntimeError "Trying to create tensor with negative dimension")
        else Ok tt) ;;;
  let uniform_log_weights := new_full N (Z.to_nat np) (neg_log M) in
  alpha <- read soft_resample_alpha ;;
  w <- read particle_log_weights ;;
  sample_logits <-
    (if Rlt_dec alpha 1 then
       (* Soft resampling *)
       massert (has_shape2b w N M) "self.particle_log_weights.shape == (N, M)" ;;;
       sample_logits <-
         lift (soft_sample_logits alpha w uniform_log_weights) ;;
       w' <- lift (tensor2_zip Rminus w sample_logits) ;;
       assign (set_particle_log_weights w') ;;;
       mret sample_logits
     else
       (* Standard particle filter re-sampling *)
       assign (set_particle_log_weights uniform_log_weights) ;;;
       mret w) ;;
  massert (has_shape2b sample_logits N M) "sample_logits.shape == (N, M)" ;;;
  draws <- lift (categorical_sample rng sample_logits (Z.to_nat np)) ;;
  let state_indices := transpose01 0 N draws in
  massert (has_shape2b state_indices N (Z.to_nat np))
          "state_indices.shape == (N, self.num_particles)" ;;;
  states <- read particle_states ;;
  states' <- lift (torch_gather3 states
                     (Long3 (expand_last state_indices d))) ;;
  assign (set_particle_states states').

(** The decision of [forward] to resample: the setting when it is set,
    otherwise off in train mode and on in eval mode. *)
Definition resample_decision (self : ParticleFilter) : bool :=
  match resample self with
  | Some b => b
  | None => negb (training self)
  end.

(** [ParticleFilter.forward]: one timestep. *)
Definition forward (observations : list Obs) (controls : list Ctrl)
  : method tensor2 :=
  (* Make sure our particle filter's been initialized *)
  init <- read _initialized ;;
  massert init "Particle filter not initialized!" ;;;
  (* Get our batch size (N), current particle count (M), & state dimension *)
  states <- read particle_states ;;
  let '(N, M, d) := shape3 states in
  self_d <- read state_dim ;;
  massert (d =? self_d) "state_dim == self.state_dim" ;;;
  massert (length controls =? N)
          "len(fannypack.utils.SliceWrapper(controls)) == N" ;;;
  (* Decide whether or not we're resampling *)
  resample <- read resample_decision ;;
  np <- read num_particles ;;
  M <- (if negb resample && negb (np =? Z.of_nat M)%Z
        then rebalance N M d
        else mret M) ;;
  (* Propagate particles through our dynamics model *)
  propagate controls N M ;;;
  (* Re-weight particles using observations *)
  reweight observations ;;;
  (* Compute output *)
  state_estimates <- estimate ;;
  (* Resampling *)
  (if resample then _resample else mret tt) ;;;
  (* Post-condition :) *)
  states <- read particle_states ;;
  w <- read particle_log_weights ;;
  np <- read num_particles ;;
  match state_estimates with
  | Est2 est =>
      massert (has_shape2b est N d) "state_estimates.shape == (N, state_dim)" ;;;
      massert ((0 <=? np)%Z && has_shape3b states N (Z.to_nat np) d)
        "self.particle_states.shape == (N, self.num_particles, state_dim)" ;;;
      massert ((0 <=? np)%Z && has_shape2b w N (Z.to_nat np))
        "self.particle_log_weights.shape == (N, self.num_particles)" ;;;
      mret est
  | Est3 _ =>
      lift (Raise (AssertionError "state_estimates.shape == (N, state_dim)"))
  end.

End Filter.


(** ** A small concrete filter

    One-dimensional states, controls and observations without content, a
    dynamics model that predicts the state it is given, and draws fixed
    once and for all. *)

Module Example.

(** The lower triangular factor of the unit covariance. *)
Definition unit_scale_tril (d : nat) : list (list R) :=
  map (fun i => map (fun j => if i =? j then 1%R else 0%R) (seq 0 d))
      (seq 0 d).

Definition identity_dynamics (d : nat) : DynamicsModel unit :=
  {| dm_state_dim := d;
     dm_forward :=
       fun states _ => Ok (states, map (fun _ => unit_scale_tril d) states) |}.

Definition flat_measurement (d : nat) : ParticleFilterMeasurementModel unit :=
  {| mm_state_dim := d;
     mm_forward := fun states _ => Ok (map (map (fun _ => 0%R)) states) |}.

Definition failing_measurement (d : nat) : ParticleFilterMeasurementModel unit :=
  {| mm_state_dim := d;
     mm_forward := fun _ _ => Raise (ValueError "measurement model failed") |}.

(** Every permutation is the identity, the Gaussian noise moves every
    coordinate by one, the prior draw returns the mean and the categorical
    draw always picks particle 0. *)
Definition fixed_draws : Random :=
  {| randperm := fun _ M => seq 0 M;
     rsample := fun loc _ => Ok (map (map (fun x => (x + 1)%R)) loc);
     mvn_sample := fun mean _ M => Ok (repeat mean M);
     categorical_sample := fun logits k => Ok (repeat (map (fun _ => 0) logits) k) |}.

Definition failing_dynamics (d : nat) : DynamicsModel unit :=
  {| dm_state_dim := d;
     dm_forward := fun _ _ => Raise (ValueError "dynamics model failed") |}.

(** A filter with [N = 1], two particles at 0 and 4 and uniform weights. *)
Definition two_particles (dyn : DynamicsModel unit)
  (meas : ParticleFilterMeasurementModel unit)
  (num_particles : Z) (resample : option bool) (alpha : R)
  (estimation_method : string) : ParticleFilter unit unit :=
  {| state_dim := 1;
     dynamics_model := dyn;
     measurement_model := meas;
     num_particles := num_particles;
     resample := resample;
     soft_resample_alpha := alpha;
     estimation_method := estimation_method;
     particle_states := [[[0%R]; [4%R]]];
     particle_log_weights := [[neg_log 2; neg_log 2]];
     _initialized := true;
     training := true |}.

(** Two particles, two wanted, no resampling in train mode. *)
Definition plain_filter : ParticleFilter unit unit :=
  two_particles (identity_dynamics 1) (flat_measurement 1) 2 None 1
    "weighted_average".

(** The same with a measurement model, or a dynamics model, that raises. *)
Definition unmeasurable_filter : ParticleFilter unit unit :=
  two_particles (identity_dynamics 1) (failing_measurement 1) 2 None 1
    "weighted_average".

Definition immovable_filter : ParticleFilter unit unit :=
  two_particles (failing_dynamics 1) (flat_measurement 1) 2 None 1
    "weighted_average".

(** Two particles held, four wanted ([num_particles] was raised after the
    initialization), standard resampling at every step. *)
Definition resampling_filter : ParticleFilter unit unit :=
  two_particles (identity_dynamics 1) (flat_measurement 1) 4 (Some true) 1
    "weighted_average".


(** Soft resampling with coefficient one half. *)
Definition soft_filter : ParticleFilter unit unit :=
  two_particles (identity_dynamics 1) (flat_measurement 1) 2 (Some true)
    (1 / 2) "weighted_average".

(** A filter as the constructor leaves it, with three particles wanted. *)
Definition new_filter : ParticleFilter unit unit :=
  {| state_dim := 1;
     dynamics_model := identity_dynamics 1;
     measurement_model := flat_measurement 1;
     num_particles := 3;
     resample := None;
     soft_resample_alpha := 1;
     estimation_method := "weighted_average";
     particle_states := [];
     particle_log_weights := [];
     _initialized := false;
     training := true |}.

End Example.

(** ** Lists with positions: lemmas *)

Lemma mapi_from_length {A B : Type} (f : nat -> A -> B) (l : list A) :
  forall n, length (mapi_from f n l) = length l.
Proof.
  induction l as [|a l IH]; intros n; simpl; [reflexivity|].
  now rewrite IH.
Qed.

Lemma mapi_length {A B : Type} (f : nat -> A -> B) (l : list A) :
  length (mapi f l) = length l.
Proof. apply mapi_from_length. Qed.

Lemma mapi_from_nth_error {A B : Type} (f : nat -> A -> B) (l : list A) :
  forall n i,
    nth_error (mapi_from f n l) i = option_map (f (n + i)) (nth_error l i).
Proof.
  induction l as [|a l IH]; intros n i; simpl.
  - now destruct i.
  - destruct i as [|i]; simpl.
    + now rewrite Nat.add_0_r.
    + rewrite IH. now rewrite Nat.add_succ_r.
Qed.

Lemma mapi_nth_error {A B : Type} (f : nat -> A -> B) (l : list A) (i : nat) :
  nth_error (mapi f l) i = option_map (f i) (nth_error l i).
Proof. unfold mapi. now rewrite mapi_from_nth_error. Qed.

Lemma mapi_from_map {A B C : Type} (f : nat -> B -> C) (g : A -> B)
  (l : list A) :
  forall n, mapi_from f n (map g l) = mapi_from (fun i a => f i (g a)) n l.
Proof.
  induction l as [|a l IH]; intros n; simpl; [reflexivity|].
  now rewrite IH.
Qed.

Lemma mapi_from_ext_in {A B : Type} (f g : nat -> A -> B) (l : list A) :
  forall n,
    (forall i a, nth_error l i = Some a -> f (n + i) a = g (n + i) a) ->
    mapi_from f n l = mapi_from g n l.
Proof.
  induction l as [|a l IH]; intros n H; simpl; [reflexivity|].
  f_equal.
  - specialize (H 0 a eq_refl). now rewrite Nat.add_0_r in H.
  - apply IH. intros i b Hi.
    specialize (H (S i) b Hi). now rewrite Nat.add_succ_r in H.
Qed.

Lemma mapi_const_map {A B : Type} (g : A -> B) (l : list A) :
  mapi (fun _ a => g a) l = map g l.
Proof.
  unfold mapi. generalize 0.
  induction l as [|a l IH]; intros n; simpl; [reflexivity|].
  now rewrite IH.
Qed.

Lemma sequence_Ok {A : Type} (l : list A) :
  sequence (map Ok l) = Ok l.
Proof.
  induction l as [|a l IH]; simpl; [reflexivity|].
  now rewrite IH.
Qed.

Lemma sequence_inv {A : Type} (l : list (result A)) :
  forall l', sequence l = Ok l' -> l = map Ok l'.
Proof.
  induction l as [|r l IH]; intros l' H; simpl in H.
  - now inversion H.
  - destruct r as [a|e]; [|discriminate].
    destruct (sequence l) as [t|e] eqn:E; [|discriminate].
    inversion H; subst. simpl. f_equal. now apply IH.
Qed.

Lemma mapiM_map {A B C : Type} (f : nat -> B -> result C) (g : A -> B)
  (l : list A) :
  mapiM f (map g l) = mapiM (fun i a => f i (g a)) l.
Proof. unfold mapiM, mapi. now rewrite mapi_from_map. Qed.

(** A traversal whose function succeeds at every position succeeds. *)
Lemma mapiM_Ok {A B : Type} (f : nat -> A -> result B) (g : nat -> A -> B)
  (l : list A) :
  (forall i a, nth_error l i = Some a -> f i a = Ok (g i a)) ->
  mapiM f l = Ok (mapi g l).
Proof.
  intros H. unfold mapiM, mapi.
  rewrite (@mapi_from_ext_in _ _ f (fun i a => Ok (g i a)) l 0) by exact H.
  clear H. generalize 0.
  induction l as [|a l IH]; intros n; simpl; [reflexivity|].
  now rewrite IH.
Qed.

(** What a successful traversal returns. *)
Lemma mapiM_inv {A B : Type} (f : nat -> A -> result B) (l : list A)
  (l' : list B) :
  mapiM f l = Ok l' ->
  length l' = length l
  /\ forall i a, nth_error l i = Some a ->
       exists b, f i a = Ok b /\ nth_error l' i = Some b.
Proof.
  unfold mapiM. intros H. apply sequence_inv in H.
  split.
  - apply (f_equal (@length _)) in H.
    rewrite mapi_length, length_map in H. auto.
  - intros i a Hi.
    apply (f_equal (fun x => nth_error x i)) in H.
    rewrite mapi_nth_error, Hi, nth_error_map in H. simpl in H.
    destruct (nth_error l' i) as [b|]; simpl in H; [|discriminate].
    exists b. split; congruence.
Qed.

Lemma mapiM_In {A B : Type} (f : nat -> A -> result B) (l : list A)
  (l' : list B) (b : B) :
  mapiM f l = Ok l' -> In b l' -> exists i a, In a l /\ f i a = Ok b.
Proof.
  intros H Hb. destruct (mapiM_inv _ _ H) as [Hlen Hnth].
  destruct (In_nth_error _ _ Hb) as [i Hi].
  assert (Hlt : i < length l).
  { rewrite <- Hlen. apply nth_error_Some. congruence. }
  destruct (nth_error l i) as [a|] eqn:Ea.
  - destruct (Hnth i a Ea) as [b' [Hf Hb']].
    exists i, a. split; [eapply nth_error_In; eauto|congruence].
  - apply nth_error_None in Ea. lia.
Qed.

Lemma mapi_repeat_const {A B : Type} (f : A -> B) (a : A) (n : nat) :
  mapi (fun _ x => f x) (repeat a n) = repeat (f a) n.
Proof. rewrite mapi_const_map. apply map_repeat. Qed.

(** Rebuilding a list from its own entries gives the list back. *)
Lemma mapi_from_rebuild {A B : Type} (dflt : A) (s : list A) (l : list B) :
  forall n, n + length l = length s ->
            mapi_from (fun k _ => nth k s dflt) n l = skipn n s.
Proof.
  induction l as [|b l IH]; intros n H; simpl in *.
  - rewrite skipn_all2; [reflexivity|lia].
  - rewrite IH by lia.
    assert (Hn : n < length s) by lia.
    clear - Hn. revert n Hn.
    induction s as [|x s IHs]; intros n Hn; simpl in *; [lia|].
    destruct n as [|n]; [reflexivity|].
    simpl. apply IHs. lia.
Qed.

Lemma mapi_rebuild {A B : Type} (dflt : A) (s : list A) (l : list B) :
  length l = length s -> mapi (fun k _ => nth k s dflt) l = s.
Proof. intros H. unfold mapi. now rewrite mapi_from_rebuild. Qed.

(** ** Shapes and gathers *)

Lemma has_shape2b_spec {A : Type} (t : list (list A)) (n m : nat) :
  has_shape2b t n m = true <-> has_shape2 t n m.
Proof.
  unfold has_shape2b, has_shape2.
  rewrite andb_true_iff, Nat.eqb_eq, forallb_forall.
  split; intros [H1 H2]; split; auto; intros row Hr.
  - apply Nat.eqb_eq. auto.
  - apply Nat.eqb_eq. auto.
Qed.

Lemma has_shape3b_spec {A : Type} (t : list (list (list A))) (n m d : nat) :
  has_shape3b t n m d = true <-> has_shape3 t n m d.
Proof.
  unfold has_shape3b, has_shape3.
  rewrite andb_true_iff, Nat.eqb_eq, forallb_forall.
  split; intros [H1 H2]; split; auto; intros row Hr.
  - specialize (H2 row Hr).
    rewrite andb_true_iff, Nat.eqb_eq, forallb_forall in H2.
    destruct H2 as [H2 H3]. split; auto.
    intros s Hs. apply Nat.eqb_eq. auto.
  - destruct (H2 row Hr) as [H3 H4].
    rewrite andb_true_iff, Nat.eqb_eq, forallb_forall.
    split; auto. intros s Hs. apply Nat.eqb_eq. auto.
Qed.

Lemma shape3_of_has_shape3 {A : Type} (t : list (list (list A))) (n m d : nat) :
  has_shape3 t n m d -> 0 < n -> 0 < m -> shape3 t = (n, m, d).
Proof.
  intros [Hn Hrows] Hn0 Hm0. unfold shape3.
  destruct t as [|row t]; simpl in *; [lia|].
  destruct (Hrows row (or_introl eq_refl)) as [Hm Hd].
  destruct row as [|s row]; simpl in *; [lia|].
  rewrite (Hd s (or_introl eq_refl)). now subst.
Qed.

Lemma nth_error_nth_lt {A : Type} (l : list A) (i : nat) (dflt : A) :
  i < length l -> nth_error l i = Some (nth i l dflt).
Proof. intros H. now apply nth_error_nth'. Qed.

Lemma select_rows_nth_error {A : Type} (dflt : A) (index : list (list nat))
  (t : list (list A)) (i : nat) :
  nth_error (select_rows dflt index t) i
  = option_map (map (fun ix => nth ix (nth i t []) dflt)) (nth_error index i).
Proof. unfold select_rows. now rewrite mapi_nth_error. Qed.

Lemma select_rows_length {A : Type} (dflt : A) (index : list (list nat))
  (t : list (list A)) :
  length (select_rows dflt index t) = length index.
Proof. apply mapi_length. Qed.


(** The gather of the states along the particle axis, with the index
    expanded over the state dimension. *)
Lemma gather3_select (states : tensor3) (index : list (list nat))
  (N M d : nat) :
  has_shape3 states N M d ->
  length index = N ->
  (forall row ix, In row index -> In ix row -> ix < M) ->
  gather3 states (expand_last index d) = Ok (select_rows [] index states).
Proof.
  intros [HN HM] Hlen Hlt. unfold gather3, expand_last, select_rows.
  rewrite mapiM_map. apply mapiM_Ok. intros i idxrow Hi.
  assert (Hin : In idxrow index) by (eapply nth_error_In; eauto).
  assert (HiN : i < length states).
  { rewrite HN, <- Hlen. apply nth_error_Some. congruence. }
  rewrite mapiM_map. rewrite <- mapi_const_map. apply mapiM_Ok.
  intros j ix Hj.
  assert (Hix : ix < M).
  { eapply Hlt; eauto. eapply nth_error_In; eauto. }
  destruct (HM (nth i states [])) as [Hrow Hst]; [apply nth_In; lia|].
  assert (Hs : length (nth ix (nth i states []) []) = d).
  { apply Hst, nth_In. lia. }
  rewrite (@mapiM_Ok _ _ _ (fun k _ => nth k (nth ix (nth i states []) []) 0%R)).
  - f_equal. apply mapi_rebuild. now rewrite repeat_length.
  - intros k ix' Hk.
    assert (Hkd : k < d).
    { rewrite <- (repeat_length ix d). apply nth_error_Some. congruence. }
    apply nth_error_In, repeat_spec in Hk. subst ix'.
    unfold lookup3. rewrite (nth_error_nth_lt states [] HiN).
    rewrite (@nth_error_nth_lt _ (nth i states []) ix []) by lia.
    rewrite (@nth_error_nth_lt _ (nth ix (nth i states []) []) k 0%R) by lia.
    reflexivity.
Qed.

(** Every selected entry is an entry of the row it was selected from. *)
Lemma select_rows_In {A : Type} (dflt : A) (index : list (list nat))
  (t : list (list A)) (N M : nat) :
  has_shape2 t N M ->
  length index = N ->
  (forall row ix, In row index -> In ix row -> ix < M) ->
  forall i row', nth_error (select_rows dflt index t) i = Some row' ->
    forall s, In s row' -> In s (nth i t []).
Proof.
  intros [HN HM] Hlen Hlt i row' Hi s Hs.
  rewrite select_rows_nth_error in Hi.
  destruct (nth_error index i) as [idxrow|] eqn:E; simpl in Hi; [|discriminate].
  inversion Hi; subst row'; clear Hi.
  apply in_map_iff in Hs. destruct Hs as [ix [Hix Hin]]. subst s.
  assert (HiN : i < length t).
  { rewrite HN, <- Hlen. apply nth_error_Some. congruence. }
  apply nth_In. rewrite (HM (nth i t [])) by (apply nth_In; lia).
  eapply Hlt; eauto. eapply nth_error_In; eauto.
Qed.

(** ** The index tensor of the particle count adjustment *)

Lemma arange_repeat_length (M k : nat) : length (arange_repeat M k) = k * M.
Proof.
  unfold arange_repeat. induction k as [|k IH]; simpl; [reflexivity|].
  rewrite length_app, length_seq, IH. reflexivity.
Qed.


Lemma arange_repeat_lt (M k ix : nat) : In ix (arange_repeat M k) -> ix < M.
Proof.
  unfold arange_repeat. induction k as [|k IH]; simpl; [tauto|].
  rewrite in_app_iff, in_seq. intros [H|H]; [lia|auto].
Qed.

Lemma skipn_repeat_sub {A : Type} (a : A) (n : nat) :
  forall m, skipn m (repeat a n) = repeat a (n - m).
Proof.
  induction n as [|n IH]; intros m; simpl.
  - now destruct m.
  - destruct m as [|m]; simpl; [reflexivity|apply IH].
Qed.

Lemma set_columns_repeat (lo hi N : nat) (v row row' : list nat) :
  set_slice lo hi v row = Ok row' ->
  set_columns lo hi v (repeat row N) = Ok (repeat row' N).
Proof.
  intros H. unfold set_columns.
  rewrite (@mapiM_Ok _ _ _ (fun _ _ => row')).
  - f_equal. apply (mapi_repeat_const (fun _ => row')).
  - intros i a Hi. apply nth_error_In, repeat_spec in Hi. now subst.
Qed.

Lemma set_slice_exact (lo hi : nat) (v row : list nat) :
  hi <= length row -> length v = hi - lo ->
  set_slice lo hi v row = Ok (firstn lo row ++ v ++ skipn hi row).
Proof.
  intros Hhi Hv. unfold set_slice.
  rewrite Nat.min_l by assumption.
  rewrite Hv, Nat.eqb_refl. reflexivity.
Qed.

(** Every row of the index tensor is [rebalance_row]; the permutation is
    only required to be long enough for the remainder. *)
Lemma rebalance_indices_rows (rng : Random) (N M n : nat) :
  0 < M ->
  n mod M <= length (randperm rng 0 M) ->
  rebalance_indices rng N M (Z.of_nat n)
  = Ok (repeat (rebalance_row (randperm rng 0 M) M n) N).
Proof.
  intros HM Hperm. unfold rebalance_indices, new_zeros_long, rebalance_row.
  destruct (Z.ltb_spec (Z.of_nat n) 0); [lia|].
  rewrite Nat2Z.id. simpl rbind.
  destruct (Nat.eqb_spec M 0); [lia|]. simpl rbind.
  pose proof (Nat.div_mod_eq n M) as Hdm.
  set (k := n / M) in *. set (r := n mod M) in *.
  assert (Hr : r < M) by (apply Nat.mod_upper_bound; lia).
  assert (Hq : (Z.of_nat n / Z.of_nat M)%Z = Z.of_nat k).
  { unfold k. now rewrite Nat2Z.inj_div. }
  rewrite Hq.
  assert (Hc : (Z.of_nat k * Z.of_nat M)%Z = Z.of_nat (k * M)) by lia.
  rewrite Hc.
  assert (Hk' : (Z.of_nat (k * M) / Z.of_nat M)%Z = Z.of_nat k).
  { rewrite <- Nat2Z.inj_div. now rewrite Nat.div_mul by lia. }
  rewrite Hk', !Nat2Z.id.
  assert (Hrem : (Z.of_nat n - Z.of_nat (k * M))%Z = Z.of_nat r) by lia.
  rewrite Hrem, Nat2Z.id.
  assert (Hfirst :
    (if (0 <? Z.of_nat (k * M))%Z
     then set_columns 0 (k * M) (arange_repeat M k) (repeat (repeat 0 n) N)
     else Ok (repeat (repeat 0 n) N))
    = Ok (repeat (arange_repeat M k ++ repeat 0 r) N)).
  { destruct (Z.ltb_spec 0 (Z.of_nat (k * M))) as [Hpos|Hzero].
    - erewrite set_columns_repeat; [reflexivity|].
      rewrite set_slice_exact.
      + simpl firstn. rewrite skipn_repeat_sub.
        replace (n - k * M) with r by lia. reflexivity.
      + rewrite repeat_length. lia.
      + rewrite arange_repeat_length. lia.
    - assert (k = 0) by nia. subst k.
      replace (n / M) with 0 by lia. simpl.
      replace r with n by lia. reflexivity. }
  rewrite Hfirst. simpl rbind.
  unfold rassert. destruct (Z.leb_spec 0 (Z.of_nat r)); [|lia]. simpl rbind.
  destruct (Z.ltb_spec 0 (Z.of_nat r)) as [Hpos|Hzero].
  - erewrite set_columns_repeat; [reflexivity|].
    rewrite set_slice_exact.
    + rewrite firstn_app, arange_repeat_length, Nat.sub_diag.
      rewrite firstn_all2 by (rewrite arange_repeat_length; lia).
      simpl firstn. rewrite app_nil_r.
      rewrite skipn_all2; [now rewrite app_nil_r|].
      rewrite length_app, arange_repeat_length, repeat_length. lia.
    + rewrite length_app, arange_repeat_length, repeat_length. lia.
    + rewrite length_firstn. lia.
  - assert (r = 0) by lia.
    replace (n mod M) with 0 by (fold r; lia).
    replace r with 0 by lia. reflexivity.
Qed.

Lemma In_firstn {A : Type} (n : nat) (l : list A) (x : A) :
  In x (firstn n l) -> In x l.
Proof.
  intros H. rewrite <- (firstn_skipn n l). apply in_or_app. now left.
Qed.

Lemma NoDup_firstn {A : Type} (n : nat) (l : list A) :
  NoDup l -> NoDup (firstn n l).
Proof.
  intros H. rewrite <- (firstn_skipn n l) in H.
  eapply NoDup_app_remove_r; eauto.
Qed.

Lemma rebalance_row_length (perm : list nat) (M n : nat) :
  0 < M -> n mod M <= length perm -> length (rebalance_row perm M n) = n.
Proof.
  intros HM Hp. unfold rebalance_row.
  rewrite length_app, arange_repeat_length, length_firstn.
  pose proof (Nat.div_mod_eq n M). lia.
Qed.

Lemma rebalance_row_lt (perm : list nat) (M n ix : nat) :
  (forall p, In p perm -> p < M) ->
  In ix (rebalance_row perm M n) -> ix < M.
Proof.
  intros Hp. unfold rebalance_row. rewrite in_app_iff.
  intros [H|H].
  - eapply arange_repeat_lt; eauto.
  - apply Hp. eapply In_firstn; eauto.
Qed.





(** ** Normalization in the log domain *)

Lemma rsum_exp_pos (row : list R) : row <> [] -> (0 < rsum (map exp row))%R.
Proof.
  intros Hne. destruct row as [|x row]; [congruence|]. clear Hne.
  revert x. induction row as [|y row IH]; intros x; simpl.
  - pose proof (exp_pos x). lra.
  - pose proof (exp_pos x). specialize (IH y). simpl in IH. lra.
Qed.

Lemma rsum_exp_shift (row : list R) (c : R) :
  rsum (map exp (map (fun x => (x - c)%R) row))
  = (rsum (map exp row) * exp (- c))%R.
Proof.
  induction row as [|x row IH]; simpl.
  - lra.
  - rewrite IH. unfold Rminus. rewrite exp_plus. lra.
Qed.

(** Subtracting the log-sum-exp of a row of at least one weight leaves
    weights that sum to one. *)
Lemma normalized_row_sums_to_one (row : list R) :
  row <> [] ->
  rsum (map exp (map (fun x => (x - logsumexp row)%R) row)) = 1%R.
Proof.
  intros Hne. pose proof (rsum_exp_pos Hne) as Hpos.
  rewrite rsum_exp_shift. unfold logsumexp.
  rewrite exp_Ropp, exp_ln by assumption.
  field. lra.
Qed.

Lemma normalize_log_weights_In (w : tensor2) (row : list R) :
  In row (normalize_log_weights w) ->
  exists row0, In row0 w /\ row = map (fun x => (x - logsumexp row0)%R) row0.
Proof.
  unfold normalize_log_weights. rewrite in_map_iff.
  intros [row0 [H1 H2]]. exists row0. split; auto.
Qed.

Lemma normalized_rows (w : tensor2) (row : list R) :
  In row (normalize_log_weights w) -> row <> [] ->
  logsumexp row = 0%R /\ rsum (map exp row) = 1%R.
Proof.
  intros Hin Hne. apply normalize_log_weights_In in Hin.
  destruct Hin as [row0 [_ ->]].
  assert (Hne0 : row0 <> []) by (intros ->; now apply Hne).
  pose proof (normalized_row_sums_to_one Hne0) as H1.
  split; [|exact H1].
  unfold logsumexp at 1. rewrite H1. apply ln_1.
Qed.

(** ** Elementwise operations *)

Lemma zipM_nth {A B C : Type} (f : A -> B -> result C) (l1 : list A) :
  forall (l2 : list B) (l3 : list C),
    zipM f l1 l2 = Ok l3 ->
    forall i a, nth_error l1 i = Some a ->
      exists b c, nth_error l2 i = Some b /\ f a b = Ok c
                  /\ nth_error l3 i = Some c.
Proof.
  induction l1 as [|a1 l1 IH]; intros l2 l3 H i a Hi.
  - now destruct i.
  - destruct l2 as [|b2 l2]; simpl in H; [discriminate|].
    destruct (f a1 b2) as [c|e] eqn:Ef; [|discriminate].
    destruct (zipM f l1 l2) as [t|e] eqn:Ez; [|discriminate].
    inversion H; subst l3; clear H.
    destruct i as [|i]; simpl in *.
    + inversion Hi; subst. eauto.
    + eapply IH; eauto.
Qed.

Lemma tensor2_zip_lookup (f : R -> R -> R) (a b c : tensor2) :
  tensor2_zip f a b = Ok c ->
  forall i j x, lookup2 a i j = Some x ->
    exists y, lookup2 b i j = Some y /\ lookup2 c i j = Some (f x y).
Proof.
  unfold tensor2_zip, lookup2. intros H i j x Hx.
  destruct (nth_error a i) as [ra|] eqn:Ea; [|discriminate].
  destruct (zipM_nth _ _ _ H _ Ea) as [rb [rc [Hb [Hf Hc]]]].
  rewrite Hb, Hc.
  destruct (zipM_nth _ _ _ Hf _ Hx) as [y [z [Hy [Hz Hz']]]].
  inversion Hz; subst z. eauto.
Qed.

Lemma lookup2_map {A B : Type} (g : A -> B) (t : list (list A)) (i j : nat) :
  lookup2 (map (map g) t) i j = option_map g (lookup2 t i j).
Proof.
  unfold lookup2. rewrite nth_error_map.
  destruct (nth_error t i) as [row|]; simpl; [|reflexivity].
  apply nth_error_map.
Qed.

Lemma lookup2_new_full (n m : nat) (v y : R) (i j : nat) :
  lookup2 (new_full n m v) i j = Some y -> y = v.
Proof.
  unfold lookup2, new_full. intros H.
  destruct (nth_error (repeat (repeat v m) n) i) as [row|] eqn:E; [|discriminate].
  apply nth_error_In, repeat_spec in E. subst row.
  apply nth_error_In, repeat_spec in H. exact H.
Qed.

(** ** Reshaping *)

Lemma chunks_shape {A : Type} (n m d : nat) :
  forall t : list (list A),
    has_shape2 t (n * m) d -> has_shape3 (chunks n m t) n m d.
Proof.
  induction n as [|n IH]; intros t [Hlen Hrow]; simpl.
  - split; [reflexivity|]. intros row [].
  - destruct (IH (skipn m t)) as [IH1 IH2].
    { split.
      - rewrite length_skipn. simpl in Hlen. lia.
      - intros row Hin. apply Hrow.
        rewrite <- (firstn_skipn m t). apply in_or_app. now right. }
    split; [simpl; now rewrite IH1|].
    intros row [Hin|Hin].
    + subst row. split.
      * rewrite length_firstn. simpl in Hlen. lia.
      * intros s Hs. apply Hrow. eapply In_firstn; eauto.
    + now apply IH2.
Qed.

Lemma chunks_flat_shape {A : Type} (k d : nat) :
  forall l : list A, length l = k * d -> has_shape2 (chunks k d l) k d.
Proof.
  induction k as [|k IH]; intros l Hlen; simpl.
  - split; [reflexivity|]. intros row [].
  - destruct (IH (skipn d l)) as [IH1 IH2].
    { rewrite length_skipn. simpl in Hlen. lia. }
    split; [simpl; now rewrite IH1|].
    intros row [Hin|Hin]; [|now apply IH2].
    subst row. rewrite length_firstn. simpl in Hlen. lia.
Qed.

(** A view that returns has the shape asked for. *)
Lemma view3_shape (n m d : nat) (t : tensor2) (s : tensor3) :
  view3 n m d t = Ok s -> has_shape3 s n m d.
Proof.
  unfold view3. intros H.
  destruct (Nat.eqb_spec (length (concat t)) (n * m * d)) as [Hlen|];
    [|discriminate].
  inversion H. apply chunks_shape. now apply chunks_flat_shape.
Qed.

Lemma length_concat_rect {A : Type} (d : nat) (t : list (list A)) :
  (forall row, In row t -> length row = d) ->
  length (concat t) = length t * d.
Proof.
  induction t as [|r t IH]; intros H; simpl; [reflexivity|].
  rewrite length_app, IH by (intros row Hr; apply H; now right).
  rewrite (H r) by now left. reflexivity.
Qed.

(** Flattening rows of one length and cutting them again gives them back. *)
Lemma chunks_concat {A : Type} (d : nat) (t : list (list A)) :
  (forall row, In row t -> length row = d) ->
  chunks (length t) d (concat t) = t.
Proof.
  induction t as [|r t IH]; intros H; simpl; [reflexivity|].
  assert (Hr : length r = d) by (apply H; now left).
  rewrite firstn_app, skipn_app, Hr, Nat.sub_diag. simpl.
  rewrite <- Hr at 1 3. rewrite firstn_all, skipn_all, app_nil_r. simpl.
  f_equal. apply IH. intros row Hrow. apply H. now right.
Qed.

(** On a tensor that has one row per particle the view groups the rows. *)
Lemma view3_rows (n m d : nat) (t : tensor2) :
  has_shape2 t (n * m) d -> view3 n m d t = Ok (chunks n m t).
Proof.
  intros [Hlen Hrows]. unfold view3.
  rewrite (length_concat_rect t Hrows), Hlen, Nat.eqb_refl.
  rewrite <- Hlen at 1. now rewrite chunks_concat.
Qed.

Lemma transpose01_shape {A : Type} (n m d : nat) (t : list (list (list A))) :
  has_shape3 t m n d -> has_shape3 (transpose01 [] n t) n m d.
Proof.
  intros [Hm Hrows]. unfold transpose01. split.
  - now rewrite length_map, length_seq.
  - intros row Hin. apply in_map_iff in Hin.
    destruct Hin as [i [Hrow Hi]]. apply in_seq in Hi. subst row.
    split; [now rewrite length_map|].
    intros s Hs. apply in_map_iff in Hs. destruct Hs as [r [Hs Hr]]. subst s.
    destruct (Hrows r Hr) as [Hlen Hd].
    apply Hd, nth_In. lia.
Qed.

Lemma new_full_shape (n m : nat) (v : R) : has_shape2 (new_full n m v) n m.
Proof.
  unfold new_full. split; [apply repeat_length|].
  intros row Hin. apply repeat_spec in Hin. subst row. apply repeat_length.
Qed.

Lemma rsum_repeat (v : R) (n : nat) : rsum (repeat v n) = (INR n * v)%R.
Proof.
  induction n as [|n IH].
  - simpl. lra.
  - rewrite S_INR. simpl. rewrite IH. lra.
Qed.

(** Uniform weights over at least one particle sum to one. *)
Lemma uniform_row_sums_to_one (M : nat) :
  0 < M -> rsum (map exp (repeat (neg_log M) M)) = 1%R.
Proof.
  intros HM. rewrite map_repeat, rsum_repeat. unfold neg_log.
  assert (HR : (0 < INR M)%R) by now apply lt_0_INR.
  rewrite exp_Ropp, exp_ln by assumption.
  field. lra.
Qed.

(** ** The timestep *)

(** Stepping through a method: case analysis on the result of each call. *)
Ltac step_method H :=
  repeat match type of H with
         | context [match ?x with _ => _ end] =>
             let E := fresh "E" in
             destruct x eqn:E; try discriminate H
         end.

Section Timestep.

Variables Ctrl Obs : Type.



Lemma same_settings_refl (a : ParticleFilter Ctrl Obs) : same_settings a a.
Proof. unfold same_settings. tauto. Qed.

Lemma same_settings_trans (a b c : ParticleFilter Ctrl Obs) :
  same_settings a b -> same_settings b c -> same_settings a c.
Proof. unfold same_settings. intuition congruence. Qed.

Lemma keeps_mret {A : Type} (a : A) : keeps_settings (@mret Ctrl Obs A a).
Proof. intros s r s' H. inversion H. apply same_settings_refl. Qed.

Lemma keeps_lift {A : Type} (r : result A) : keeps_settings (@lift Ctrl Obs A r).
Proof. intros s r' s' H. inversion H. apply same_settings_refl. Qed.

Lemma keeps_read {A : Type} (f : ParticleFilter Ctrl Obs -> A) :
  keeps_settings (read f).
Proof. intros s r s' H. inversion H. apply same_settings_refl. Qed.

Lemma keeps_massert (b : bool) (msg : string) :
  keeps_settings (@massert Ctrl Obs b msg).
Proof. apply keeps_lift. Qed.

Lemma keeps_assign_states (t : tensor3) :
  keeps_settings (assign (@set_particle_states Ctrl Obs t)).
Proof. intros s r s' H. inversion H. unfold same_settings. simpl. tauto. Qed.

Lemma keeps_assign_weights (w : tensor2) :
  keeps_settings (assign (@set_particle_log_weights Ctrl Obs w)).
Proof. intros s r s' H. inversion H. unfold same_settings. simpl. tauto. Qed.

Lemma keeps_mbind {A B : Type} (m : method Ctrl Obs A)
  (k : A -> method Ctrl Obs B) :
  keeps_settings m -> (forall a, keeps_settings (k a)) ->
  keeps_settings (mbind m k).
Proof.
  intros Hm Hk s r s' H. unfold mbind in H.
  destruct (m s) as [[a|e] s1] eqn:E.
  - eapply same_settings_trans; [eapply Hm|eapply Hk]; eauto.
  - inversion H; subst. eapply Hm; eauto.
Qed.

Ltac keeps :=
  repeat first
    [ apply keeps_mret | apply keeps_lift | apply keeps_read
    | apply keeps_massert | apply keeps_assign_states
    | apply keeps_assign_weights
    | apply keeps_mbind; [|intros ?]
    | match goal with
      | |- keeps_settings (if ?b then _ else _) => destruct b
      | |- keeps_settings (match ?x with _ => _ end) => destruct x
      end ].

Lemma keeps_rebalance (rng : Random) (N M d : nat) :
  keeps_settings (@rebalance Ctrl Obs rng N M d).
Proof. unfold rebalance. keeps. Qed.

Lemma keeps_propagate (rng : Random) (controls : list Ctrl) (N M : nat) :
  keeps_settings (@propagate Ctrl Obs rng controls N M).
Proof. unfold propagate. keeps. Qed.

Lemma keeps_reweight (observations : list Obs) :
  keeps_settings (@reweight Ctrl Obs observations).
Proof. unfold reweight. keeps. Qed.

Lemma keeps_estimate : keeps_settings (@estimate Ctrl Obs).
Proof. unfold estimate. keeps. Qed.

Lemma keeps__resample (rng : Random) : keeps_settings (@_resample Ctrl Obs rng).
Proof. unfold _resample. keeps. Qed.

(** A sequence raises as soon as its continuation raises wherever its
    first part returns. *)
Lemma mbind_raises {A B : Type} (m : method Ctrl Obs A)
  (k : A -> method Ctrl Obs B) (self : ParticleFilter Ctrl Obs) :
  (forall a s, m self = (Ok a, s) -> exists e s', k a s = (Raise e, s')) ->
  exists e s', mbind m k self = (Raise e, s').
Proof.
  intros H. unfold mbind. destruct (m self) as [[a|e] s] eqn:E; eauto.
Qed.

(** The argmax estimate hands a rank 1 index to a gather of the rank 3
    particle states, which raises. *)
Lemma estimate_argmax_raises (self : ParticleFilter Ctrl Obs) :
  estimation_method self = "argmax"%string ->
  exists e, estimate self = (Raise e, self).
Proof.
  intros H. unfold estimate, mbind, read, lift, mret. rewrite H. simpl.
  destruct (argmax_dim1 (particle_log_weights self)); simpl; eauto.
Qed.

Lemma mbind_raises_settings {A B : Type} (m : method Ctrl Obs A)
  (k : A -> method Ctrl Obs B) (self0 self : ParticleFilter Ctrl Obs) :
  same_settings self0 self ->
  keeps_settings m ->
  (forall a s, same_settings self0 s -> exists e s', k a s = (Raise e, s')) ->
  exists e s', mbind m k self = (Raise e, s').
Proof.
  intros H0 Hm Hk. apply mbind_raises. intros a s E.
  apply Hk. eapply same_settings_trans; [exact H0|eapply Hm; eauto].
Qed.

Ltac keeps_all :=
  repeat first
    [ apply keeps_rebalance | apply keeps_propagate | apply keeps_reweight
    | apply keeps_estimate | apply keeps__resample | progress keeps ].

(** C2: with the estimation method 'argmax' the timestep never returns an
    estimate: whatever the belief, the observations and the controls, the
    call raises (at the latest in the gather of the estimate, whose index
    has rank 1 while the particle states have rank 3). *)
Theorem forward_argmax_raises (rng : Random) (observations : list Obs)
  (controls : list Ctrl) (self : ParticleFilter Ctrl Obs) :
  exists e self',
    forward rng observations controls (set_estimation_method "argmax" self)
    = (Raise e, self').
Proof.
  set (self0 := set_estimation_method "argmax" self).
  assert (H0 : same_settings self0 self0) by apply same_settings_refl.
  revert H0. generalize self0 at 2 3. intros s0 H0.
  unfold forward.
  eapply mbind_raises_settings; [exact H0|keeps_all|clear s0 H0; intros init s0 H0].
  eapply mbind_raises_settings; [exact H0|keeps_all|clear s0 H0; intros _ s0 H0].
  eapply mbind_raises_settings; [exact H0|keeps_all|clear s0 H0; intros states s0 H0].
  unfold shape3. cbv beta iota zeta.
  eapply mbind_raises_settings; [exact H0|keeps_all|clear s0 H0; intros self_d s0 H0].
  eapply mbind_raises_settings; [exact H0|keeps_all|clear s0 H0; intros _ s0 H0].
  eapply mbind_raises_settings; [exact H0|keeps_all|clear s0 H0; intros _ s0 H0].
  eapply mbind_raises_settings; [exact H0|keeps_all|clear s0 H0; intros rs s0 H0].
  eapply mbind_raises_settings; [exact H0|keeps_all|clear s0 H0; intros np s0 H0].
  eapply mbind_raises_settings; [exact H0|keeps_all|clear s0 H0; intros M s0 H0].
  eapply mbind_raises_settings; [exact H0|keeps_all|clear s0 H0; intros _ s0 H0].
  eapply mbind_raises_settings; [exact H0|keeps_all|clear s0 H0; intros _ s0 H0].
  assert (Hm : estimation_method s0 = "argmax"%string).
  { destruct H0 as (_ & _ & _ & _ & _ & _ & Hm & _). now rewrite <- Hm. }
  destruct (estimate_argmax_raises s0 Hm) as [e He].
  unfold mbind at 1. rewrite He. eauto.
Qed.

Lemma rebalance_weights_normalized (rng : Random)
  (self self' : ParticleFilter Ctrl Obs) (N M d x : nat) :
  rebalance rng N M d self = (Ok x, self') ->
  exists w, particle_log_weights self' = normalize_log_weights w.
Proof.
  unfold rebalance, mbind, read, lift, assign, massert, mret, rassert.
  intros H. step_method H.
  inversion H; subst. simpl. eauto.
Qed.

Lemma reweight_weights_normalized
  (self self' : ParticleFilter Ctrl Obs) (observations : list Obs) :
  reweight observations self = (Ok tt, self') ->
  exists w, particle_log_weights self' = normalize_log_weights w.
Proof.
  unfold reweight, mbind, read, lift, assign.
  intros H. step_method H.
  inversion H; subst. simpl. eauto.
Qed.

(** C6: after each of the two normalization steps of the timestep (the one
    that ends the particle count adjustment and the one that follows the
    re-weighting), every row of [particle_log_weights] that holds at least
    one particle has log-sum-exp 0: its exponentiated weights sum to 1. *)
Theorem normalization_logsumexp_zero (rng : Random)
  (self self' : ParticleFilter Ctrl Obs) (observations : list Obs)
  (N M d x : nat) (row : list R) :
  rebalance rng N M d self = (Ok x, self')
  \/ reweight observations self = (Ok tt, self') ->
  In row (particle_log_weights self') ->
  row <> [] ->
  logsumexp row = 0%R /\ rsum (map exp row) = 1%R.
Proof.
  intros [H|H] Hin Hne.
  - apply rebalance_weights_normalized in H. destruct H as [w Hw].
    rewrite Hw in Hin. now apply normalized_rows with (w := w).
  - apply reweight_weights_normalized in H. destruct H as [w Hw].
    rewrite Hw in Hin. now apply normalized_rows with (w := w).
Qed.

(** C7: on the soft resampling path (0 < alpha < 1) the logits handed to
    the categorical draw are, particle by particle, the log-sum-exp of the
    weight plus [log alpha] and of the uniform log-weight plus
    [log (1 - alpha)], and the weights stored by the call are the old
    weights minus these logits. *)
Theorem soft_resample_logits_and_weights (rng : Random)
  (self self' : ParticleFilter Ctrl Obs) :
  (0 < soft_resample_alpha self < 1)%R ->
  _resample rng self = (Ok tt, self') ->
  let N := length (particle_states self) in
  let M := length (hd [] (particle_states self)) in
  let n := Z.to_nat (num_particles self) in
  let alpha := soft_resample_alpha self in
  exists sample_logits,
    soft_sample_logits alpha (particle_log_weights self)
      (new_full N n (neg_log M)) = Ok sample_logits
    /\ (exists draws, categorical_sample rng sample_logits n = Ok draws)
    /\ forall i j x,
         lookup2 (particle_log_weights self) i j = Some x ->
         let logit :=
           logsumexp [(x + ln alpha)%R; (neg_log M + ln (1 - alpha))%R] in
         lookup2 sample_logits i j = Some logit
         /\ lookup2 (particle_log_weights self') i j = Some (x - logit)%R.
Proof.
  intros Halpha H N M n alpha.
  unfold _resample, mbind, read, lift, assign, massert, mret, rassert, shape3
    in H.
  cbv beta iota zeta in H.
  fold N M n alpha in H.
  destruct (num_particles self <? 0)%Z; [discriminate|].
  destruct (Rlt_dec alpha 1) as [_|Hge]; [|unfold alpha in Hge; lra].
  destruct (has_shape2b (particle_log_weights self) N M); [|discriminate].
  destruct (soft_sample_logits alpha (particle_log_weights self)
              (new_full N n (neg_log M))) as [logits|] eqn:El; [|discriminate].
  destruct (tensor2_zip Rminus (particle_log_weights self) logits)
    as [w'|] eqn:Ew; [|discriminate].
  simpl in H.
  destruct (has_shape2b logits N M); [|discriminate].
  destruct (categorical_sample rng logits n) as [draws|] eqn:Ed; [|discriminate].
  destruct (has_shape2b (transpose01 0 N draws) N n); [|discriminate].
  simpl in H.
  destruct (gather3 _ _) as [st|] in H; [|discriminate].
  inversion H; subst self'; clear H. simpl.
  exists logits. split; [reflexivity|]. split; [eauto|].
  intros i j x Hx. set (logit := logsumexp _).
  assert (Hl : lookup2 logits i j = Some logit).
  { unfold soft_sample_logits in El.
    assert (Hx' : lookup2 (map (map (fun x => (x + ln alpha)%R))
                             (particle_log_weights self)) i j
                  = Some (x + ln alpha)%R).
    { rewrite lookup2_map, Hx. reflexivity. }
    destruct (tensor2_zip_lookup _ _ _ El _ _ Hx') as [y [Hy Hz]].
    rewrite lookup2_map in Hy.
    destruct (lookup2 (new_full N n (neg_log M)) i j) as [u|] eqn:Eu;
      [|discriminate].
    apply lookup2_new_full in Eu. subst u.
    simpl in Hy. inversion Hy; subst y. exact Hz. }
  split; [exact Hl|].
  destruct (tensor2_zip_lookup _ _ _ Ew _ _ Hx) as [y [Hy Hz]].
  rewrite Hl in Hy. inversion Hy; subst y. exact Hz.
Qed.

(** On the standard resampling path the stored weights are the tensor
    [uniform_log_weights]: the target count of columns, filled with minus
    the logarithm of the current count. *)
Lemma resample_standard_weights (rng : Random)
  (self self' : ParticleFilter Ctrl Obs) :
  ~ (soft_resample_alpha self < 1)%R ->
  _resample rng self = (Ok tt, self') ->
  particle_log_weights self'
  = new_full (length (particle_states self))
             (Z.to_nat (num_particles self))
             (neg_log (length (hd [] (particle_states self)))).
Proof.
  intros Halpha H.
  unfold _resample, mbind, read, lift, assign, massert, mret, rassert, shape3
    in H.
  cbv beta iota zeta in H.
  destruct (num_particles self <? 0)%Z; [discriminate|].
  destruct (Rlt_dec (soft_resample_alpha self) 1) as [Hlt|_]; [contradiction|].
  simpl in H. step_method H.
  inversion H; subst self'. reflexivity.
Qed.

(** C9: the timestep raises an assertion error and leaves the filter as it
    was when the filter is not initialized and when the batch size of the
    controls differs from the batch size of the belief.  (The observations
    are not inspected: they are handed to the measurement model as they
    are.) *)
Theorem forward_entry_checks (rng : Random) (observations : list Obs)
  (controls : list Ctrl) (self : ParticleFilter Ctrl Obs) :
  _initialized self = false
  \/ length controls <> length (particle_states self) ->
  exists msg,
    forward rng observations controls self = (Raise (AssertionError msg), self).
Proof.
  intros H.
  unfold forward, mbind, read, massert, lift, rassert, shape3.
  cbv beta iota zeta.
  destruct (_initialized self); [|eauto].
  destruct (_ =? state_dim self); [|eauto].
  destruct (Nat.eqb_spec (length controls) (length (particle_states self)));
    [|eauto].
  destruct H; [discriminate|contradiction].
Qed.

(** A propagation that raises has assigned nothing. *)
Lemma propagate_raise_unchanged (rng : Random) (controls : list Ctrl)
  (N M : nat) (self self' : ParticleFilter Ctrl Obs) (e : exn) :
  propagate rng controls N M self = (Raise e, self') -> self' = self.
Proof.
  unfold propagate, mbind, read, lift, assign, massert, rassert.
  intros H.
  destruct (dm_forward _ _ _) as [[predicted scale]|e0];
    [|inversion H; reflexivity].
  destruct (rsample rng predicted scale) as [samples|e0];
    [|inversion H; reflexivity].
  destruct (view3 N M (state_dim self) samples) as [states'|e0] eqn:Eview;
    [|inversion H; reflexivity].
  simpl in H.
  apply view3_shape, has_shape3b_spec in Eview.
  rewrite Eview in H. discriminate.
Qed.

(** C3: a timestep that fails one of its entry checks (filter not
    initialized, state dimension of the belief different from the one of
    the filter, batch size of the controls different from the one of the
    belief) raises and leaves the filter as it was; so does, when no
    particle count adjustment takes place, a timestep whose propagation
    fails: the dynamics model raises, the Gaussian draw is refused, or the
    draw does not have the number of entries of a [(N, M, state_dim)]
    tensor. *)
Theorem forward_early_failure_keeps_belief (rng : Random)
  (observations : list Obs) (controls : list Ctrl)
  (self : ParticleFilter Ctrl Obs) (N M d : nat) :
  shape3 (particle_states self) = (N, M, d) ->
  _initialized self = false
  \/ d <> state_dim self
  \/ length controls <> N
  \/ ((resample_decision self = true \/ num_particles self = Z.of_nat M)
      /\ is_ok (fst (propagate rng controls N M self)) = false) ->
  exists e, forward rng observations controls self = (Raise e, self).
Proof.
  intros Hshape H.
  unfold forward, mbind, read, massert, lift, rassert, mret.
  rewrite Hshape. cbv beta iota zeta.
  destruct (_initialized self); [|eauto].
  destruct (Nat.eqb_spec d (state_dim self)) as [Hd|Hd]; [|eauto].
  destruct (Nat.eqb_spec (length controls) N) as [Hc|Hc]; [|eauto].
  destruct H as [H|[H|[H|[Hno Hprop]]]];
    [discriminate|contradiction|contradiction|].
  assert (Hcond : negb (resample_decision self)
                  && negb (num_particles self =? Z.of_nat M)%Z = false).
  { destruct Hno as [-> | ->]; [reflexivity|].
    rewrite Z.eqb_refl. apply andb_false_r. }
  rewrite Hcond.
  destruct (propagate rng controls N M self) as [[[]|err] s] eqn:Ep;
    [discriminate|].
  apply propagate_raise_unchanged in Ep. subst s. eauto.
Qed.

(** C10: the index tensor of the particle count adjustment has one row per
    batch row and all of them are the same list: the remainder positions of
    every row are the first entries of one and the same draw, the single
    call (number 0) of [randperm] in the timestep, whatever the later draws
    of the generator would be. *)
Theorem rebalance_indices_shared_by_rows (rng : Random) (N M n : nat) :
  0 < M ->
  n mod M <= length (randperm rng 0 M) ->
  exists indices,
    rebalance_indices rng N M (Z.of_nat n) = Ok indices
    /\ length indices = N
    /\ (forall i i' row row',
          nth_error indices i = Some row ->
          nth_error indices i' = Some row' -> row = row')
    /\ (forall row, In row indices ->
          skipn (n / M * M) row = firstn (n mod M) (randperm rng 0 M)).
Proof.
  intros HM Hlen. eexists. split; [now apply rebalance_indices_rows|].
  split; [apply repeat_length|]. split.
  - intros i i' row row' Hi Hi'.
    apply nth_error_In, repeat_spec in Hi.
    apply nth_error_In, repeat_spec in Hi'. congruence.
  - intros row Hin. apply repeat_spec in Hin. subst row.
    unfold rebalance_row.
    rewrite skipn_app, arange_repeat_length, Nat.sub_diag.
    rewrite skipn_all2 by (rewrite arange_repeat_length; lia).
    reflexivity.
Qed.

(** C8: for a mean of shape [(N, d)], a covariance of shape [(N, d, d)]
    that the Gaussian sampler accepts and [M] configured particles,
    [initialize_beliefs] stores particle states of shape [(N, M, d)], sets
    every log-weight to [- log M], so that each row sums to one in
    probability space when there is at least one particle, and sets the
    initialized flag. *)
Theorem initialize_beliefs_uniform (rng : Random)
  (self : ParticleFilter Ctrl Obs) (mean : tensor2) (covariance : tensor3)
  (samples : tensor3) (N M : nat) :
  has_shape2 mean N (state_dim self) ->
  has_shape3 covariance N (state_dim self) (state_dim self) ->
  num_particles self = Z.of_nat M ->
  mvn_sample rng mean covariance M = Ok samples ->
  has_shape3 samples M N (state_dim self) ->
  exists self',
    initialize_beliefs rng mean covariance self = (Ok tt, self')
    /\ has_shape3 (particle_states self') N M (state_dim self)
    /\ has_shape2 (particle_log_weights self') N M
    /\ (forall row x,
          In row (particle_log_weights self') -> In x row -> x = neg_log M)
    /\ (0 < M ->
        forall row,
          In row (particle_log_weights self') -> rsum (map exp row) = 1%R)
    /\ _initialized self' = true.
Proof.
  intros Hmean Hcov Hnp Hsample Hshape.
  assert (HN : length mean = N) by apply Hmean.
  pose proof (transpose01_shape Hshape) as Hstates.
  pose proof (new_full_shape N M (neg_log M)) as Hw.
  unfold initialize_beliefs, mbind, read, massert, lift, rassert, assign.
  rewrite HN.
  apply has_shape2b_spec in Hmean. rewrite Hmean.
  apply has_shape3b_spec in Hcov. rewrite Hcov.
  rewrite Hnp. destruct (Z.ltb_spec (Z.of_nat M) 0); [lia|].
  rewrite Nat2Z.id, Hsample. cbn -[transpose01 new_full].
  pose proof Hstates as Hb. apply has_shape3b_spec in Hb. rewrite Hb.
  pose proof Hw as Hwb. apply has_shape2b_spec in Hwb. rewrite Hwb.
  eexists. split; [reflexivity|]. cbn -[transpose01 new_full].
  split; [exact Hstates|]. split; [exact Hw|]. split; [|split].
  - intros row x Hrow Hx. apply repeat_spec in Hrow. subst row.
    now apply repeat_spec in Hx.
  - intros HM row Hrow. apply repeat_spec in Hrow. subst row.
    now apply uniform_row_sums_to_one.
  - reflexivity.
Qed.

End Timestep.

(** ** Construction *)

(** C4: the constructor raises an assertion error exactly when the two
    models disagree on the state dimension or the estimation method is
    neither 'weighted_average' nor 'argmax'; every particle count and every
    soft-resample coefficient is accepted and stored as given. *)
Theorem init_checks_models_and_method (Ctrl Obs : Type)
  (dyn : DynamicsModel Ctrl) (meas : ParticleFilterMeasurementModel Obs)
  (n : Z) (resample : option bool) (alpha : R) (name : string) :
  match __init__ dyn meas n resample alpha name with
  | Ok self =>
      dm_state_dim dyn = mm_state_dim meas
      /\ (name = "weighted_average"%string \/ name = "argmax"%string)
      /\ num_particles self = n
      /\ soft_resample_alpha self = alpha
      /\ _initialized self = false
  | Raise e =>
      (dm_state_dim dyn <> mm_state_dim meas
       \/ (name <> "weighted_average"%string /\ name <> "argmax"%string))
      /\ exists msg, e = AssertionError msg
  end.
Proof.
  unfold __init__, rbind, rassert.
  destruct (Nat.eqb_spec (dm_state_dim dyn) (mm_state_dim meas)) as [Hd|Hd].
  - destruct (String.eqb_spec name "weighted_average") as [Hw|Hw];
      destruct (String.eqb_spec name "argmax") as [Ha|Ha]; simpl;
      try (repeat split; auto; fail).
    split; [right; split; assumption|eauto].
  - split; [now left|eauto].
Qed.

(** ** The properties on the concrete filter *)

Ltac run_filter :=
  cbv -[Rplus Rminus Rmult Rdiv Ropp Rinv IZR exp ln INR Rlt_dec Rlt
        logsumexp neg_log].

Lemma neg_log_2_4 : neg_log 2 <> neg_log 4.
Proof.
  unfold neg_log. intros H.
  assert (Hlt : (ln (INR 2) < ln (INR 4))%R).
  { apply ln_increasing; [apply lt_0_INR; lia|apply lt_INR; lia]. }
  lra.
Qed.

(** C1: a filter that holds two particles per row while four are wanted and
    resamples on the standard path ends its timestep with four particles per
    row, each of log-weight [- log 2]: the logarithm is taken of the count
    before the resampling, and [- log 2] is not [- log 4]. *)
Theorem resample_standard_weights_use_old_count :
  exists est self',
    forward Example.fixed_draws [tt] [tt] Example.resampling_filter
    = (Ok est, self')
    /\ has_shape3 (particle_states self') 1 4 1
    /\ particle_log_weights self'
       = [[neg_log 2; neg_log 2; neg_log 2; neg_log 2]]
    /\ neg_log 2 <> neg_log 4.
Proof.
  do 2 eexists. split.
  - run_filter. destruct (Rlt_dec 1 1) as [Hlt|_]; [lra|].
    run_filter. reflexivity.
  - split; [apply has_shape3b_spec; reflexivity|].
    split; [reflexivity|apply neg_log_2_4].
Qed.

(** Counterexample to C3 as stated: the measurement model raises after the
    propagated particles were stored. *)
Lemma forward_failure_changes_belief :
  fst (forward Example.fixed_draws [tt] [tt] Example.unmeasurable_filter)
  = Raise (ValueError "measurement model failed")
  /\ particle_states
       (snd (forward Example.fixed_draws [tt] [tt] Example.unmeasurable_filter))
     <> particle_states Example.unmeasurable_filter.
Proof.
  run_filter. split; [reflexivity|].
  intros H. inversion H. lra.
Qed.

(** Counterexample to C4 as stated: a negative particle count and a
    coefficient of 2 pass the constructor. *)
Lemma init_accepts_bad_count_and_alpha :
  (-5 <= 0)%Z /\ ~ (0 < 2 <= 1)%R
  /\ is_ok (__init__ (Example.identity_dynamics 1)
              (Example.flat_measurement 1) (-5) None 2 "weighted_average")
     = true.
Proof.
  split; [lia|]. split; [lra|]. reflexivity.
Qed.

(** Counterexample to C9 as stated: two observations for a belief of batch
    size one, and the timestep returns an estimate. *)
Lemma forward_accepts_observation_batch_mismatch :
  length [tt; tt] <> length (particle_states Example.plain_filter)
  /\ is_ok (fst (forward Example.fixed_draws [tt; tt] [tt] Example.plain_filter))
     = true.
Proof.
  split; [simpl; lia|]. run_filter. reflexivity.
Qed.

(** ** Instances of the general properties on the concrete filter *)

Lemma forward_early_failure_keeps_belief_witness :
  shape3 (particle_states Example.immovable_filter) = (1, 2, 1)
  /\ is_ok (fst (propagate Example.fixed_draws [tt] 1 2 Example.immovable_filter))
     = false
  /\ exists e,
       forward Example.fixed_draws [tt] [tt] Example.immovable_filter
       = (Raise e, Example.immovable_filter).
Proof.
  split; [reflexivity|]. split; [reflexivity|].
  apply (@forward_early_failure_keeps_belief unit unit Example.fixed_draws
           [tt] [tt] Example.immovable_filter 1 2 1).
  - reflexivity.
  - right. right. right. split; [right; reflexivity|reflexivity].
Defined.


Lemma normalization_logsumexp_zero_witness :
  logsumexp
    (hd [] (particle_log_weights
              (snd (reweight [tt] Example.plain_filter)))) = 0%R
  /\ rsum (map exp
             (hd [] (particle_log_weights
                       (snd (reweight [tt] Example.plain_filter))))) = 1%R.
Proof.
  apply (@normalization_logsumexp_zero unit unit Example.fixed_draws
           Example.plain_filter (snd (reweight [tt] Example.plain_filter))
           [tt] 0 0 0 0).
  - right. reflexivity.
  - left. reflexivity.
  - run_filter. discriminate.
Defined.

Lemma soft_resample_logits_and_weights_witness :
  (0 < soft_resample_alpha Example.soft_filter < 1)%R
  /\ exists self' sample_logits,
       _resample Example.fixed_draws Example.soft_filter = (Ok tt, self')
       /\ soft_sample_logits (1 / 2)
            (particle_log_weights Example.soft_filter)
            (new_full 1 2 (neg_log 2)) = Ok sample_logits.
Proof.
  assert (Halpha : (0 < soft_resample_alpha Example.soft_filter < 1)%R).
  { simpl. lra. }
  split; [exact Halpha|].
  assert (Hrun : exists self',
             _resample Example.fixed_draws Example.soft_filter = (Ok tt, self')).
  { run_filter. destruct (Rlt_dec (1 / 2) 1) as [_|Hge]; [|lra].
    run_filter. eexists. reflexivity. }
  destruct Hrun as [self' Hrun].
  destruct (@soft_resample_logits_and_weights unit unit Example.fixed_draws
              Example.soft_filter self' Halpha Hrun)
    as [logits [Hlogits _]].
  exists self', logits. split; [exact Hrun|exact Hlogits].
Defined.

Lemma initialize_beliefs_uniform_witness :
  exists self',
    initialize_beliefs Example.fixed_draws [[0%R]] [[[1%R]]] Example.new_filter
    = (Ok tt, self')
    /\ has_shape3 (particle_states self') 1 3 1
    /\ _initialized self' = true.
Proof.
  destruct (@initialize_beliefs_uniform unit unit Example.fixed_draws
              Example.new_filter [[0%R]] [[[1%R]]]
              [[[0%R]]; [[0%R]]; [[0%R]]] 1 3)
    as [self' [Hrun [Hshape [_ [_ [_ Hinit]]]]]].
  - apply has_shape2b_spec. reflexivity.
  - apply has_shape3b_spec. reflexivity.
  - reflexivity.
  - reflexivity.
  - apply has_shape3b_spec. reflexivity.
  - exists self'. split; [exact Hrun|split; [exact Hshape|exact Hinit]].
Defined.

Lemma forward_entry_checks_witness :
  length (@nil unit) <> length (particle_states Example.plain_filter)
  /\ exists msg,
       forward Example.fixed_draws [tt] [] Example.plain_filter
       = (Raise (AssertionError msg), Example.plain_filter).
Proof.
  assert (H : length (@nil unit) <> length (particle_states Example.plain_filter)).
  { simpl. lia. }
  split; [exact H|].
  apply (@forward_entry_checks unit unit Example.fixed_draws [tt] []
           Example.plain_filter).
  right. exact H.
Defined.

Lemma rebalance_indices_shared_by_rows_witness :
  0 < 2
  /\ 5 mod 2 <= length (randperm Example.fixed_draws 0 2)
  /\ exists indices,
       rebalance_indices Example.fixed_draws 3 2 (Z.of_nat 5) = Ok indices
       /\ length indices = 3
       /\ (forall i i' row row',
             nth_error indices i = Some row ->
             nth_error indices i' = Some row' -> row = row')
       /\ (forall row, In row indices ->
             skipn (5 / 2 * 2) row
             = firstn (5 mod 2) (randperm Example.fixed_draws 0 2)).
Proof.
  assert (H1 : 0 < 2) by lia.
  assert (H2 : 5 mod 2 <= length (randperm Example.fixed_draws 0 2)).
  { simpl. lia. }
  split; [exact H1|]. split; [exact H2|].
  exact (@rebalance_indices_shared_by_rows Example.fixed_draws 3 2 5 H1 H2).
Defined.

(** ** Further properties of the timestep *)

Section Step.

Variables Ctrl Obs : Type.

Lemma mbind_Ok_inv {A B : Type} (m : method Ctrl Obs A)
  (k : A -> method Ctrl Obs B) (s s' : ParticleFilter Ctrl Obs) (b : B) :
  mbind m k s = (Ok b, s') ->
  exists a s1, m s = (Ok a, s1) /\ k a s1 = (Ok b, s').
Proof.
  unfold mbind. destruct (m s) as [[a|e] s1]; [eauto|discriminate].
Qed.

Lemma read_inv {A : Type} (f : ParticleFilter Ctrl Obs -> A)
  (s s' : ParticleFilter Ctrl Obs) (a : A) :
  read f s = (Ok a, s') -> a = f s /\ s' = s.
Proof. unfold read. intros H. inversion H. auto. Qed.

Lemma massert_inv (b : bool) (msg : string)
  (s s' : ParticleFilter Ctrl Obs) (u : unit) :
  massert b msg s = (Ok u, s') -> b = true /\ s' = s.
Proof.
  unfold massert, lift, rassert. destruct b; intros H; inversion H; auto.
Qed.

Lemma lift_inv {A : Type} (r : result A)
  (s s' : ParticleFilter Ctrl Obs) (a : A) :
  lift r s = (Ok a, s') -> r = Ok a /\ s' = s.
Proof. unfold lift. intros H. inversion H. auto. Qed.

Lemma assign_inv (f : ParticleFilter Ctrl Obs -> ParticleFilter Ctrl Obs)
  (s s' : ParticleFilter Ctrl Obs) (u : unit) :
  assign f s = (Ok u, s') -> s' = f s.
Proof. unfold assign. intros H. inversion H. auto. Qed.

(** Inversion of one step of a method that returned. *)
Ltac bind_inv H a s E :=
  apply mbind_Ok_inv in H; destruct H as (a & s & E & H).

Ltac bind_read H a :=
  let s := fresh "s" in
  let E := fresh "E" in
  bind_inv H a s E; apply read_inv in E; destruct E as [-> ->].

Ltac bind_assert H Hb :=
  let u := fresh "u" in
  let s := fresh "s" in
  let E := fresh "E" in
  bind_inv H u s E; apply massert_inv in E; destruct E as [Hb ->].

(** The estimate reads the belief and assigns nothing. *)
Lemma estimate_pure (s s' : ParticleFilter Ctrl Obs) (r : result Estimate) :
  estimate s = (r, s') -> s' = s.
Proof.
  unfold estimate, mbind, read, lift, mret. intros H.
  step_method H; inversion H; reflexivity.
Qed.

(** The stages of a timestep that returned. *)
Lemma forward_Ok_inv (rng : Random) (observations : list Obs)
  (controls : list Ctrl) (self self' : ParticleFilter Ctrl Obs)
  (est : tensor2) :
  forward rng observations controls self = (Ok est, self') ->
  let N := length (particle_states self) in
  let M := length (hd [] (particle_states self)) in
  let d := length (hd [] (hd [] (particle_states self))) in
  exists M' s1 s2 s3,
    _initialized self = true
    /\ d = state_dim self
    /\ length controls = N
    /\ (if negb (resample_decision self)
           && negb (num_particles self =? Z.of_nat M)%Z
        then rebalance rng N M d
        else mret M) self = (Ok M', s1)
    /\ propagate rng controls N M' s1 = (Ok tt, s2)
    /\ reweight observations s2 = (Ok tt, s3)
    /\ estimate s3 = (Ok (Est2 est), s3)
    /\ (if resample_decision self then _resample rng else mret tt) s3
       = (Ok tt, self')
    /\ has_shape2 est N d
    /\ (0 <= num_particles self')%Z
    /\ has_shape3 (particle_states self') N (Z.to_nat (num_particles self')) d
    /\ has_shape2 (particle_log_weights self') N
         (Z.to_nat (num_particles self')).
Proof.
  intros H N M d. unfold forward in H.
  bind_read H init. bind_assert H Hinit. bind_read H states.
  unfold shape3 in H. cbv beta iota zeta in H. fold N M d in H.
  bind_read H sd. bind_assert H Hd. bind_assert H Hc.
  bind_read H rs. bind_read H np.
  bind_inv H M' s1 Ereb. bind_inv H u2 s2 Eprop. bind_inv H u3 s3 Erew.
  bind_inv H e0 s4 Eest. bind_inv H u4 s5 Eres.
  destruct u2, u3, u4.
  pose proof (estimate_pure _ Eest) as ->.
  bind_read H st. bind_read H w. bind_read H np'.
  destruct e0 as [e2|e3]; [|unfold lift in H; discriminate].
  bind_assert H He. bind_assert H Hs. bind_assert H Hw.
  unfold mret in H. inversion H; subst est s5; clear H.
  apply Nat.eqb_eq in Hd, Hc.
  apply andb_true_iff in Hs, Hw. destruct Hs as [Hnp Hs]. destruct Hw as [_ Hw].
  apply Z.leb_le in Hnp.
  apply has_shape2b_spec in He, Hw. apply has_shape3b_spec in Hs.
  exists M', s1, s2, s3. repeat (split; [assumption|]). assumption.
Qed.

Ltac keeps_step :=
  repeat first
    [ apply keeps_rebalance | apply keeps_propagate | apply keeps_reweight
    | apply keeps_estimate | apply keeps__resample
    | apply keeps_mret | apply keeps_lift | apply keeps_read
    | apply keeps_massert | apply keeps_assign_states
    | apply keeps_assign_weights
    | apply keeps_mbind; [|intros ?]
    | match goal with
      | |- keeps_settings (if ?b then _ else _) => destruct b
      | |- keeps_settings (match ?x with _ => _ end) => destruct x
      end ].

Lemma keeps_forward (rng : Random) (observations : list Obs)
  (controls : list Ctrl) :
  keeps_settings (forward (Ctrl := Ctrl) rng observations controls).
Proof. unfold forward, shape3. keeps_step. Qed.

(** X1: whatever its outcome, a timestep changes nothing but the belief:
    the models, the state dimension, the particle count wanted, the
    resampling setting, the soft-resample coefficient, the estimation
    method, the initialized flag and the training flag are left as they
    were. *)
Theorem forward_keeps_settings (rng : Random) (observations : list Obs)
  (controls : list Ctrl) (self self' : ParticleFilter Ctrl Obs)
  (r : result tensor2) :
  forward rng observations controls self = (r, self') ->
  same_settings self self'.
Proof. apply keeps_forward. Qed.

(** X2: a timestep that returns satisfies its post-conditions in terms of
    the filter it started from: the estimate has one row per batch row and
    [state_dim] columns, and the belief holds exactly [num_particles]
    particles per row, which is then not negative. *)
Theorem forward_postconditions (rng : Random) (observations : list Obs)
  (controls : list Ctrl) (self self' : ParticleFilter Ctrl Obs)
  (est : tensor2) :
  forward rng observations controls self = (Ok est, self') ->
  let N := length (particle_states self) in
  let n := Z.to_nat (num_particles self) in
  length controls = N
  /\ (0 <= num_particles self)%Z
  /\ has_shape2 est N (state_dim self)
  /\ has_shape3 (particle_states self') N n (state_dim self)
  /\ has_shape2 (particle_log_weights self') N n.
Proof.
  intros H N n.
  pose proof (@keeps_forward _ _ _ _ _ _ H) as Hset.
  destruct Hset as (_ & _ & _ & Hnp & _).
  apply forward_Ok_inv in H.
  destruct H as (M' & s1 & s2 & s3 & _ & Hd & Hc & _ & _ & _ & _ & _
                 & He & Hpos & Hs & Hw).
  unfold n. rewrite Hnp. rewrite <- Hd.
  repeat (split; [assumption|]). assumption.
Qed.

(** X3: when the timestep does not resample (resampling switched off, or
    left unset in train mode) and returns, the log-weights it leaves are
    the normalized ones: every row with at least one particle has
    log-sum-exp 0 and sums to one in probability space. *)
Theorem forward_without_resampling_normalized (rng : Random)
  (observations : list Obs) (controls : list Ctrl)
  (self self' : ParticleFilter Ctrl Obs) (est : tensor2) (row : list R) :
  resample_decision self = false ->
  forward rng observations controls self = (Ok est, self') ->
  In row (particle_log_weights self') ->
  row <> [] ->
  logsumexp row = 0%R /\ rsum (map exp row) = 1%R.
Proof.
  intros Hres H Hin Hne.
  apply forward_Ok_inv in H.
  destruct H as (M' & s1 & s2 & s3 & _ & _ & _ & _ & _ & Hrew & _ & Hlast & _).
  rewrite Hres in Hlast. unfold mret in Hlast. inversion Hlast; subst s3.
  apply reweight_weights_normalized in Hrew. destruct Hrew as [w Hw].
  rewrite Hw in Hin. now apply normalized_rows with (w := w).
Qed.

(** *** Resampling *)

Lemma zipM_length {A B C : Type} (f : A -> B -> result C) (l1 : list A) :
  forall (l2 : list B) (l3 : list C),
    zipM f l1 l2 = Ok l3 -> length l1 = length l2 /\ length l3 = length l1.
Proof.
  induction l1 as [|a l1 IH]; intros l2 l3 H.
  - destruct l2; simpl in H; [|discriminate]. inversion H. auto.
  - destruct l2 as [|b l2]; simpl in H; [discriminate|].
    destruct (f a b) as [c|e]; [|discriminate].
    destruct (zipM f l1 l2) as [t|e] eqn:Ez; [|discriminate].
    inversion H; subst l3. destruct (IH _ _ Ez). simpl. split; congruence.
Qed.

(** Two tensors that combine elementwise have rows of the same lengths. *)
Lemma tensor2_zip_first_row (f : R -> R -> R) (a b c : tensor2) :
  tensor2_zip f a b = Ok c -> length (hd [] a) = length (hd [] b).
Proof.
  unfold tensor2_zip. intros H.
  destruct a as [|ra a]; destruct b as [|rb b]; simpl in *;
    try discriminate; [reflexivity|].
  destruct (zipM (fun x y => Ok (f x y)) ra rb) as [rc|e] eqn:E; [|discriminate].
  apply zipM_length in E. tauto.
Qed.

(** A gather of the states that returns read valid particle positions. *)
Lemma gather3_expand_valid (states : tensor3) (index : list (list nat))
  (st : tensor3) (N M d : nat) :
  has_shape3 states N M d ->
  0 < d ->
  gather3 states (expand_last index d) = Ok st ->
  forall row ix, In row index -> In ix row -> ix < M.
Proof.
  intros [HN HM] Hd H row ix Hrow Hix.
  unfold gather3, expand_last in H. rewrite mapiM_map in H.
  destruct (In_nth_error _ _ Hrow) as [i Hi].
  destruct (mapiM_inv _ _ H) as [_ Hrows].
  destruct (Hrows i row Hi) as [r' [Hr' _]].
  rewrite mapiM_map in Hr'.
  destruct (In_nth_error _ _ Hix) as [j Hj].
  destruct (mapiM_inv _ _ Hr') as [_ Hcells].
  destruct (Hcells j ix Hj) as [s [Hs _]].
  destruct (mapiM_inv _ _ Hs) as [_ Hk].
  destruct (Hk 0 ix) as [v [Hv _]].
  { destruct d; [lia|reflexivity]. }
  unfold of_option, lookup3, index_error in Hv.
  destruct (nth_error states i) as [r|] eqn:Er; [|discriminate].
  destruct (nth_error r ix) as [s0|] eqn:Es; [|discriminate].
  apply nth_error_In in Er. destruct (HM r Er) as [Hlen _].
  rewrite <- Hlen. apply nth_error_Some. congruence.
Qed.

(** The part of [_resample] that sets the weights leaves the particle
    states alone. *)
Lemma resample_tail_inv (rng : Random)
  (self self' : ParticleFilter Ctrl Obs) :
  _resample rng self = (Ok tt, self') ->
  let N := length (particle_states self) in
  let d := length (hd [] (hd [] (particle_states self))) in
  let n := Z.to_nat (num_particles self) in
  exists (index : list (list nat)) (st : tensor3),
    has_shape2 index N n
    /\ gather3 (particle_states self) (expand_last index d) = Ok st
    /\ particle_states self' = st.
Proof.
  intros H N d n.
  unfold _resample, mbind, read, lift, assign, massert, mret, rassert, shape3
    in H.
  cbv beta iota zeta in H. fold N d n in H.
  destruct (num_particles self <? 0)%Z; [discriminate|].
  destruct (Rlt_dec (soft_resample_alpha self) 1).
  - destruct (has_shape2b (particle_log_weights self) N _); [|discriminate].
    destruct (soft_sample_logits _ _ _) as [logits|]; [|discriminate].
    destruct (tensor2_zip Rminus _ _) as [w'|]; [|discriminate].
    simpl in H.
    destruct (has_shape2b logits N _); [|discriminate].
    destruct (categorical_sample rng logits n) as [draws|]; [|discriminate].
    destruct (has_shape2b (transpose01 0 N draws) N n) eqn:Ei; [|discriminate].
    simpl in H.
    destruct (gather3 _ _) as [st|] eqn:Eg in H; [|discriminate].
    inversion H; subst self'; clear H.
    exists (transpose01 0 N draws), st.
    split; [now apply has_shape2b_spec|]. split; [exact Eg|reflexivity].
  - simpl in H.
    destruct (has_shape2b (particle_log_weights self) N _); [|discriminate].
    destruct (categorical_sample rng _ n) as [draws|]; [|discriminate].
    destruct (has_shape2b (transpose01 0 N draws) N n) eqn:Ei; [|discriminate].
    simpl in H.
    destruct (gather3 _ _) as [st|] eqn:Eg in H; [|discriminate].
    inversion H; subst self'; clear H.
    exists (transpose01 0 N draws), st.
    split; [now apply has_shape2b_spec|]. split; [exact Eg|reflexivity].
Qed.

(** X4: resampling (on either path) that returns on a belief of shape
    [(N, M, d)] with [N], [M] and [d] positive leaves exactly
    [num_particles] particles per row, and every particle of a row is one
    of the particles that row held before: no state is made up and no
    state crosses batch rows. *)
Theorem resample_draws_from_own_row (rng : Random)
  (self self' : ParticleFilter Ctrl Obs) (N M d : nat) :
  has_shape3 (particle_states self) N M d ->
  0 < N -> 0 < M -> 0 < d ->
  _resample rng self = (Ok tt, self') ->
  has_shape3 (particle_states self') N (Z.to_nat (num_particles self)) d
  /\ forall i row' s,
       nth_error (particle_states self') i = Some row' ->
       In s row' -> In s (nth i (particle_states self) []).
Proof.
  intros Hshape HN HM Hd H.
  pose proof (shape3_of_has_shape3 Hshape HN HM) as Hs3.
  unfold shape3 in Hs3. injection Hs3 as H1 H2 H3.
  apply resample_tail_inv in H.
  destruct H as (index & st & Hidx & Hg & Hst).
  rewrite H1 in Hidx. rewrite H3 in Hg. rewrite Hst. clear Hst.
  pose proof (@gather3_expand_valid _ _ _ _ _ _ Hshape Hd Hg) as Hvalid.
  destruct Hidx as [HidxN Hidxn].
  rewrite gather3_select with (N := N) (M := M) in Hg by assumption.
  inversion Hg; subst st; clear Hg.
  split.
  - split; [now rewrite select_rows_length|].
    intros row Hrow. destruct (In_nth_error _ _ Hrow) as [i Hi].
    rewrite select_rows_nth_error in Hi.
    destruct (nth_error index i) as [idxrow|] eqn:E; simpl in Hi; [|discriminate].
    inversion Hi; subst row; clear Hi.
    assert (HiN : i < N).
    { rewrite <- HidxN. apply nth_error_Some. congruence. }
    split.
    + rewrite length_map. apply Hidxn. eapply nth_error_In; eauto.
    + intros s Hs. apply in_map_iff in Hs. destruct Hs as [ix [Hs Hix]].
      subst s. destruct Hshape as [HlenN Hrows].
      destruct (Hrows (nth i (particle_states self) [])) as [Hrl Hsl];
        [apply nth_In; lia|].
      apply Hsl, nth_In. rewrite Hrl.
      eapply Hvalid; eauto. eapply nth_error_In; eauto.
  - intros i row' s Hi Hs.
    assert (Hsh2 : has_shape2 (particle_states self) N M).
    { destruct Hshape as [HlenN Hrows]. split; [assumption|].
      intros r Hr. now apply Hrows. }
    eapply select_rows_In with (N := N) (M := M); eauto.
Qed.

(** X5: on the standard path ([soft_resample_alpha] not below 1) a
    resampling that returns leaves, in every row, [num_particles] weights
    that sum in probability space to [num_particles / M], where [M] is the
    particle count before the call: to one exactly when the count is not
    changed. *)
Theorem resample_standard_row_sum (rng : Random)
  (self self' : ParticleFilter Ctrl Obs) (row : list R) :
  ~ (soft_resample_alpha self < 1)%R ->
  0 < length (hd [] (particle_states self)) ->
  _resample rng self = (Ok tt, self') ->
  In row (particle_log_weights self') ->
  length row = Z.to_nat (num_particles self)
  /\ rsum (map exp row)
     = (INR (Z.to_nat (num_particles self))
        / INR (length (hd [] (particle_states self))))%R.
Proof.
  intros Halpha HM H Hin.
  rewrite (@resample_standard_weights _ _ _ _ _ Halpha H) in Hin.
  unfold new_full in Hin. apply repeat_spec in Hin. subst row.
  split; [apply repeat_length|].
  rewrite map_repeat, rsum_repeat. unfold neg_log.
  assert (HR : (0 < INR (length (hd [] (particle_states self))))%R)
    by now apply lt_0_INR.
  rewrite exp_Ropp, exp_ln by assumption.
  field. lra.
Qed.

(** X6: soft resampling cannot change the particle count: with
    [soft_resample_alpha] below 1, a belief with at least one batch row
    and a particle count other than [num_particles] makes [_resample]
    raise, and nothing has been assigned when it does. *)
Theorem resample_soft_count_mismatch_raises (rng : Random)
  (self : ParticleFilter Ctrl Obs) :
  (soft_resample_alpha self < 1)%R ->
  particle_states self <> [] ->
  Z.to_nat (num_particles self) <> length (hd [] (particle_states self)) ->
  exists e, _resample rng self = (Raise e, self).
Proof.
  intros Halpha Hne Hcount.
  unfold _resample, mbind, read, massert, lift, assign, mret, rassert, shape3.
  cbv beta iota zeta.
  set (N := length (particle_states self)).
  set (M := length (hd [] (particle_states self))).
  set (n := Z.to_nat (num_particles self)).
  destruct (num_particles self <? 0)%Z; [simpl; eauto|].
  destruct (Rlt_dec (soft_resample_alpha self) 1) as [_|Hge]; [|contradiction].
  destruct (has_shape2b (particle_log_weights self) N M) eqn:Ew; [|simpl; eauto].
  destruct (soft_sample_logits _ _ _) as [logits|e] eqn:El; [|simpl; eauto].
  exfalso. apply Hcount. change (n = M). unfold soft_sample_logits in El.
  apply tensor2_zip_first_row in El.
  apply has_shape2b_spec in Ew. destruct Ew as [HwN HwM].
  assert (HN : 0 < N).
  { unfold N. destruct (particle_states self); [congruence|simpl; lia]. }
  destruct (particle_log_weights self) as [|r0 w]; [simpl in HwN; lia|].
  unfold new_full in El. destruct N as [|N']; [lia|].
  simpl in El. rewrite !length_map, repeat_length in El.
  rewrite <- El. apply HwM. now left.
Qed.

(** *** Particle count adjustment *)

Lemma count_occ_arange_repeat (M k ix : nat) :
  ix < M -> count_occ Nat.eq_dec (arange_repeat M k) ix = k.
Proof.
  intros Hix. unfold arange_repeat.
  induction k as [|k IH]; simpl; [reflexivity|].
  rewrite count_occ_app, IH.
  assert (H1 : count_occ Nat.eq_dec (seq 0 M) ix = 1).
  { apply NoDup_count_occ'; [apply seq_NoDup|apply in_seq; lia]. }
  lia.
Qed.

Lemma rebalance_row_count (perm : list nat) (M n ix : nat) :
  NoDup perm -> ix < M ->
  n / M <= count_occ Nat.eq_dec (rebalance_row perm M n) ix <= n / M + 1.
Proof.
  intros Hnd Hix. unfold rebalance_row.
  rewrite count_occ_app, count_occ_arange_repeat by assumption.
  assert (H1 : count_occ Nat.eq_dec (firstn (n mod M) perm) ix <= 1).
  { apply (proj1 (NoDup_count_occ Nat.eq_dec _)). now apply NoDup_firstn. }
  lia.
Qed.

(** X7: the positions chosen by the particle count adjustment are
    balanced: in every row each of the [M] original particles is chosen
    either [n / M] or [n / M + 1] times, and exactly [n / M] times when
    [n] is a multiple of [M]. *)
Theorem rebalance_indices_balanced (rng : Random) (N M n : nat) :
  0 < M ->
  Permutation (randperm rng 0 M) (seq 0 M) ->
  exists indices,
    rebalance_indices rng N M (Z.of_nat n) = Ok indices
    /\ forall row ix,
         In row indices -> ix < M ->
         n / M <= count_occ Nat.eq_dec row ix <= n / M + 1
         /\ (n mod M = 0 -> count_occ Nat.eq_dec row ix = n / M).
Proof.
  intros HM Hperm.
  assert (Hlen : length (randperm rng 0 M) = M).
  { rewrite (Permutation_length Hperm). apply length_seq. }
  assert (Hnd : NoDup (randperm rng 0 M)).
  { apply (Permutation_NoDup (Permutation_sym Hperm)), seq_NoDup. }
  assert (Hr : n mod M < M) by (apply Nat.mod_upper_bound; lia).
  eexists. split; [apply rebalance_indices_rows; lia|].
  intros row ix Hrow Hix. apply repeat_spec in Hrow. subst row.
  split; [now apply rebalance_row_count|].
  intros Hz. unfold rebalance_row. rewrite Hz. simpl firstn.
  rewrite app_nil_r. now apply count_occ_arange_repeat.
Qed.

(** X8: when fewer particles are wanted than are held ([n < M]) the
    adjustment keeps [n] particles at pairwise different positions: no
    particle is taken twice. *)
Theorem rebalance_indices_shrink_distinct (rng : Random) (N M n : nat) :
  n < M ->
  Permutation (randperm rng 0 M) (seq 0 M) ->
  exists indices,
    rebalance_indices rng N M (Z.of_nat n) = Ok indices
    /\ forall row,
         In row indices ->
         length row = n /\ NoDup row /\ forall ix, In ix row -> ix < M.
Proof.
  intros Hn Hperm.
  assert (Hlen : length (randperm rng 0 M) = M).
  { rewrite (Permutation_length Hperm). apply length_seq. }
  assert (Hnd : NoDup (randperm rng 0 M)).
  { apply (Permutation_NoDup (Permutation_sym Hperm)), seq_NoDup. }
  assert (Hlt : forall p, In p (randperm rng 0 M) -> p < M).
  { intros p Hp. apply (Permutation_in _ Hperm) in Hp.
    apply in_seq in Hp. lia. }
  assert (Hmod : n mod M = n) by now apply Nat.mod_small.
  assert (Hdiv : n / M = 0) by now apply Nat.div_small.
  eexists. split; [apply rebalance_indices_rows; lia|].
  intros row Hrow. apply repeat_spec in Hrow. subst row.
  split; [apply rebalance_row_length; lia|].
  split.
  - unfold rebalance_row. rewrite Hdiv, Hmod. simpl.
    now apply NoDup_firstn.
  - intros ix. now apply rebalance_row_lt.
Qed.

(** X9: the adjustment raises before it assigns anything when the belief
    holds no particle (the integer division by the current count) and when
    the particle count wanted is negative (the size of the index tensor). *)
Theorem rebalance_rejects_degenerate_counts (rng : Random)
  (self : ParticleFilter Ctrl Obs) (N M d : nat) :
  M = 0 \/ (num_particles self < 0)%Z ->
  exists e,
    rebalance rng N M d self = (Raise e, self)
    /\ ((num_particles self < 0)%Z /\ (exists msg, e = RuntimeError msg)
        \/ (0 <= num_particles self)%Z /\ e = ZeroDivisionError).
Proof.
  intros H.
  unfold rebalance, mbind, read, lift, rebalance_indices, new_zeros_long.
  destruct (Z.ltb_spec (num_particles self) 0) as [Hneg|Hpos].
  - simpl. eexists. split; [reflexivity|]. left. eauto.
  - destruct H as [->|H]; [|lia].
    simpl. eexists. split; [reflexivity|]. right. auto.
Qed.

(** *** Initialization *)

(** What [initialize_beliefs] leaves behind when the sampler accepts its
    arguments. *)
Lemma initialize_beliefs_run (rng : Random)
  (self : ParticleFilter Ctrl Obs) (mean : tensor2) (covariance : tensor3)
  (samples : tensor3) (N M : nat) :
  has_shape2 mean N (state_dim self) ->
  has_shape3 covariance N (state_dim self) (state_dim self) ->
  num_particles self = Z.of_nat M ->
  mvn_sample rng mean covariance M = Ok samples ->
  has_shape3 samples M N (state_dim self) ->
  initialize_beliefs rng mean covariance self
  = (Ok tt,
     set_initialized true
       (set_particle_log_weights (new_full N M (neg_log M))
          (set_particle_states (transpose01 [] N samples) self))).
Proof.
  intros Hmean Hcov Hnp Hsample Hshape.
  assert (HN : length mean = N) by apply Hmean.
  pose proof (transpose01_shape Hshape) as Hstates.
  pose proof (new_full_shape N M (neg_log M)) as Hw.
  unfold initialize_beliefs, mbind, read, massert, lift, rassert, assign.
  rewrite HN.
  apply has_shape2b_spec in Hmean. rewrite Hmean.
  apply has_shape3b_spec in Hcov. rewrite Hcov.
  rewrite Hnp. destruct (Z.ltb_spec (Z.of_nat M) 0); [lia|].
  rewrite Nat2Z.id, Hsample. cbn -[transpose01 new_full].
  apply has_shape3b_spec in Hstates. rewrite Hstates.
  apply has_shape2b_spec in Hw. rewrite Hw.
  reflexivity.
Qed.

(** X10: particle [j] of batch row [i] of the initial belief is row [i] of
    the [j]-th draw of the Gaussian sampler (the draws come with the
    particle axis first and are transposed), and the call gives the same
    belief whatever belief the filter held before. *)
Theorem initialize_beliefs_layout (rng : Random)
  (self : ParticleFilter Ctrl Obs) (mean : tensor2) (covariance : tensor3)
  (samples : tensor3) (N M : nat) :
  has_shape2 mean N (state_dim self) ->
  has_shape3 covariance N (state_dim self) (state_dim self) ->
  num_particles self = Z.of_nat M ->
  mvn_sample rng mean covariance M = Ok samples ->
  has_shape3 samples M N (state_dim self) ->
  forall (old_states : tensor3) (old_weights : tensor2),
  exists self',
    initialize_beliefs rng mean covariance
      (set_particle_log_weights old_weights
         (set_particle_states old_states self))
    = (Ok tt, self')
    /\ particle_states self'
       = particle_states
           (snd (initialize_beliefs rng mean covariance self))
    /\ particle_log_weights self'
       = particle_log_weights
           (snd (initialize_beliefs rng mean covariance self))
    /\ forall i j, i < N -> j < M ->
         lookup2 (particle_states self') i j = lookup2 samples j i.
Proof.
  intros Hmean Hcov Hnp Hsample Hshape old_states old_weights.
  rewrite (@initialize_beliefs_run rng self mean covariance samples N M)
    by assumption.
  rewrite (@initialize_beliefs_run rng
             (set_particle_log_weights old_weights
                (set_particle_states old_states self))
             mean covariance samples N M) by assumption.
  eexists. split; [reflexivity|]. simpl.
  split; [reflexivity|]. split; [reflexivity|].
  intros i j Hi Hj. unfold lookup2, transpose01.
  rewrite nth_error_map, nth_error_seq.
  destruct (Nat.ltb_spec i N); [|lia]. simpl.
  rewrite nth_error_map.
  destruct Hshape as [HM Hrows].
  destruct (nth_error samples j) as [r|] eqn:Er.
  - simpl. symmetry. apply nth_error_nth_lt.
    apply nth_error_In in Er. destruct (Hrows r Er) as [Hlen _]. lia.
  - apply nth_error_None in Er. lia.
Qed.

(** X11: a call of [initialize_beliefs] whose mean or covariance has the
    wrong shape, whose particle count is negative, or whose sampler
    rejects the covariance, raises and leaves the filter as it was: in
    particular it stays uninitialized if it was. *)
Theorem initialize_beliefs_rejects (rng : Random)
  (self : ParticleFilter Ctrl Obs) (mean : tensor2) (covariance : tensor3) :
  has_shape2b mean (length mean) (state_dim self) = false
  \/ has_shape3b covariance (length mean) (state_dim self) (state_dim self)
     = false
  \/ (num_particles self < 0)%Z
  \/ is_ok (mvn_sample rng mean covariance (Z.to_nat (num_particles self)))
     = false ->
  exists e, initialize_beliefs rng mean covariance self = (Raise e, self).
Proof.
  intros H.
  unfold initialize_beliefs, mbind, read, massert, lift, rassert, assign.
  destruct (has_shape2b mean _ _); [|simpl; eauto].
  destruct (has_shape3b covariance _ _ _); [|simpl; eauto].
  destruct (Z.ltb_spec (num_particles self) 0) as [Hneg|Hpos]; [simpl; eauto|].
  destruct (mvn_sample rng mean covariance _) as [samples|e]; [|simpl; eauto].
  destruct H as [H|[H|[H|H]]]; try discriminate. lia.
Qed.

(** *** The weighted average *)

Lemma zipM_Ok {A B C : Type} (f : A -> B -> result C) (g : A -> B -> C)
  (l1 : list A) :
  forall l2 : list B,
    length l1 = length l2 ->
    (forall a b, In (a, b) (combine l1 l2) -> f a b = Ok (g a b)) ->
    zipM f l1 l2 = Ok (map (fun p => g (fst p) (snd p)) (combine l1 l2)).
Proof.
  induction l1 as [|a l1 IH]; intros l2 Hlen Hf.
  - destruct l2; [reflexivity|discriminate].
  - destruct l2 as [|b l2]; [discriminate|]. simpl.
    rewrite (Hf a b) by now left.
    rewrite IH; [reflexivity|simpl in Hlen; lia|].
    intros a' b' Hin. apply Hf. now right.
Qed.

Lemma nth_error_combine {A B : Type} (l1 : list A) :
  forall (l2 : list B) (i : nat) (a : A) (b : B),
    nth_error l1 i = Some a -> nth_error l2 i = Some b ->
    nth_error (combine l1 l2) i = Some (a, b).
Proof.
  induction l1 as [|x l1 IH]; intros l2 i a b H1 H2.
  - now destruct i.
  - destruct l2 as [|y l2]; [now destruct i|].
    destruct i as [|i]; simpl in *; [congruence|eauto].
Qed.

Lemma vadd_length (a b : list R) :
  length a = length b -> length (vadd a b) = length a.
Proof.
  intros H. unfold vadd. rewrite length_map, length_combine. lia.
Qed.

Lemma vadd_nth (a : list R) :
  forall (b : list R) (k : nat),
    length a = length b ->
    nth k (vadd a b) 0%R = (nth k a 0 + nth k b 0)%R.
Proof.
  unfold vadd.
  induction a as [|x a IH]; intros b k Hlen.
  - destruct b; [|discriminate]. destruct k; simpl; lra.
  - destruct b as [|y b]; [discriminate|].
    destruct k as [|k]; simpl; [reflexivity|].
    apply IH. simpl in Hlen. lia.
Qed.

Lemma fold_vadd_length (d : nat) (rows : list (list R)) :
  (forall r, In r rows -> length r = d) ->
  length (fold_right vadd (repeat 0%R d) rows) = d.
Proof.
  induction rows as [|r rows IH]; intros H; simpl.
  - apply repeat_length.
  - rewrite vadd_length.
    + apply H. now left.
    + rewrite IH; [apply H; now left|]. intros r' Hr'. apply H. now right.
Qed.

Lemma fold_vadd_nth (d : nat) (rows : list (list R)) (k : nat) :
  (forall r, In r rows -> length r = d) ->
  nth k (fold_right vadd (repeat 0%R d) rows) 0%R
  = rsum (map (fun r => nth k r 0%R) rows).
Proof.
  induction rows as [|r rows IH]; intros H; simpl.
  - destruct (Nat.lt_ge_cases k d) as [Hk|Hk].
    + apply nth_repeat_lt. exact Hk.
    + apply nth_overflow. now rewrite repeat_length.
  - rewrite vadd_nth.
    + rewrite IH; [reflexivity|]. intros r' Hr'. apply H. now right.
    + rewrite fold_vadd_length; [apply H; now left|].
      intros r' Hr'. apply H. now right.
Qed.

Lemma nth_map_scale (st : list R) (c : R) (k : nat) :
  nth k (map (fun x => (x * c)%R) st) 0%R = (nth k st 0 * c)%R.
Proof.
  rewrite <- (map_nth (fun x => (x * c)%R) st 0%R k).
  replace (0 * c)%R with 0%R by lra. reflexivity.
Qed.

(** The weighted-average estimate of a well-shaped belief. *)
Lemma estimate_weighted_average_run (self : ParticleFilter Ctrl Obs)
  (N M : nat) :
  estimation_method self = "weighted_average"%string ->
  has_shape3 (particle_states self) N M (state_dim self) ->
  has_shape2 (particle_log_weights self) N M ->
  exists est,
    estimate self = (Ok (Est2 est), self)
    /\ forall i k row wrow,
         nth_error (particle_states self) i = Some row ->
         nth_error (particle_log_weights self) i = Some wrow ->
         lookup2 est i k
         = if k <? state_dim self
           then Some (rsum (map (fun p => (nth k (fst p) 0 * exp (snd p))%R)
                               (combine row wrow)))
           else None.
Proof.
  intros Hm [HsN Hsrows] [HwN Hwrows].
  unfold estimate, mbind, read, lift, mret, weight_states. rewrite Hm. simpl.
  rewrite (@zipM_Ok _ _ _ _
             (fun row wrow =>
                map (fun q => map (fun x => (x * exp (snd q))%R) (fst q))
                    (combine row wrow))).
  - eexists. split; [reflexivity|].
    intros i k row wrow Hrow Hwrow.
    unfold lookup2, sum_dim1. rewrite !nth_error_map.
    rewrite (nth_error_combine _ _ _ Hrow Hwrow). simpl.
    assert (Hlen : forall r,
               In r (map (fun q => map (fun x => (x * exp (snd q))%R) (fst q))
                         (combine row wrow)) ->
               length r = state_dim self).
    { intros r Hr. apply in_map_iff in Hr. destruct Hr as [[st lw] [Hr Hq]].
      subst r. rewrite length_map. simpl.
      apply in_combine_l in Hq.
      apply nth_error_In in Hrow. destruct (Hsrows row Hrow) as [_ Hd].
      now apply Hd. }
    destruct (Nat.ltb_spec k (state_dim self)) as [Hk|Hk].
    + rewrite (@nth_error_nth_lt _ _ k 0%R)
        by (rewrite fold_vadd_length; assumption).
      rewrite fold_vadd_nth by assumption.
      rewrite map_map. f_equal. f_equal.
      apply map_ext. intros [st lw]. simpl. apply nth_map_scale.
    + apply nth_error_None. rewrite fold_vadd_length; assumption.
  - congruence.
  - intros row wrow Hin.
    apply zipM_Ok with (g := fun st lw => map (fun x => (x * exp lw)%R) st).
    + apply in_combine_l in Hin as Hr. apply in_combine_r in Hin as Hw.
      destruct (Hsrows row Hr) as [-> _]. now rewrite (Hwrows wrow Hw).
    + reflexivity.
Qed.

(** A weighted sum with positive weights lies between the bounds of its
    terms, scaled by the sum of the weights. *)
Lemma weighted_sum_bounds (f : list R -> R) (lo hi : R)
  (row : list (list R)) :
  forall wrow : list R,
    (forall st, In st row -> (lo <= f st <= hi)%R) ->
    (lo * rsum (map exp (firstn (length row) wrow))
     <= rsum (map (fun p => (f (fst p) * exp (snd p))%R) (combine row wrow))
     <= hi * rsum (map exp (firstn (length row) wrow)))%R.
Proof.
  induction row as [|st row IH]; intros wrow H; simpl.
  - lra.
  - destruct wrow as [|lw wrow]; simpl; [lra|].
    specialize (IH wrow (fun s Hs => H s (or_intror Hs))).
    pose proof (H st (or_introl eq_refl)) as Hst.
    pose proof (exp_pos lw). nra.
Qed.

(** The settings and the belief shape at the estimate of a timestep that
    does not resample. *)
Lemma forward_without_resampling_estimate (rng : Random)
  (observations : list Obs) (controls : list Ctrl)
  (self self' : ParticleFilter Ctrl Obs) (est : tensor2) :
  resample_decision self = false ->
  forward rng observations controls self = (Ok est, self') ->
  estimate self' = (Ok (Est2 est), self')
  /\ same_settings self self'
  /\ has_shape3 (particle_states self') (length (particle_states self))
       (Z.to_nat (num_particles self')) (state_dim self)
  /\ has_shape2 (particle_log_weights self') (length (particle_states self))
       (Z.to_nat (num_particles self'))
  /\ exists w, particle_log_weights self' = normalize_log_weights w.
Proof.
  intros Hres H.
  pose proof (@keeps_forward _ _ _ _ _ _ H) as Hset.
  apply forward_Ok_inv in H.
  destruct H as (M' & s1 & s2 & s3 & _ & Hd & _ & _ & _ & Hrew & Hest & Hlast
                 & _ & _ & Hs & Hw).
  rewrite Hres in Hlast. unfold mret in Hlast. inversion Hlast; subst s3.
  rewrite Hd in Hs. apply reweight_weights_normalized in Hrew. auto.
Qed.

(** X12: when the timestep does not resample and estimates by
    'weighted_average', the estimate it returns is the weighted mean of
    the belief it leaves behind: coordinate [k] of row [i] is the sum over
    the particles of row [i] of their coordinate [k] times the exponential
    of their log-weight. *)
Theorem forward_estimate_is_weighted_mean (rng : Random)
  (observations : list Obs) (controls : list Ctrl)
  (self self' : ParticleFilter Ctrl Obs) (est : tensor2)
  (i k : nat) (row : list (list R)) (wrow : list R) :
  resample_decision self = false ->
  estimation_method self = "weighted_average"%string ->
  forward rng observations controls self = (Ok est, self') ->
  nth_error (particle_states self') i = Some row ->
  nth_error (particle_log_weights self') i = Some wrow ->
  k < state_dim self ->
  lookup2 est i k
  = Some (rsum (map (fun p => (nth k (fst p) 0 * exp (snd p))%R)
                  (combine row wrow))).
Proof.
  intros Hres Hm H Hrow Hwrow Hk.
  destruct (@forward_without_resampling_estimate _ _ _ _ _ _ Hres H)
    as (Hest & Hset & Hs & Hw & w & Hnorm).
  destruct Hset as (Hsd & _ & _ & _ & _ & _ & Hmeth & _).
  rewrite Hsd in Hs. rewrite Hmeth in Hm.
  destruct (@estimate_weighted_average_run _ _ _ Hm Hs Hw) as [est0 [Hrun Hval]].
  rewrite Hrun in Hest. inversion Hest; subst est0.
  rewrite (Hval i k row wrow Hrow Hwrow).
  rewrite <- Hsd. destruct (Nat.ltb_spec k (state_dim self)); [reflexivity|lia].
Qed.

(** X13: under the same conditions the estimate stays within the
    particles: if coordinate [k] of every particle left in row [i] lies
    between [lo] and [hi], and the row holds at least one particle, so
    does coordinate [k] of the estimate of row [i]. *)
Theorem forward_estimate_within_particles (rng : Random)
  (observations : list Obs) (controls : list Ctrl)
  (self self' : ParticleFilter Ctrl Obs) (est : tensor2)
  (i k : nat) (row : list (list R)) (lo hi v : R) :
  resample_decision self = false ->
  estimation_method self = "weighted_average"%string ->
  forward rng observations controls self = (Ok est, self') ->
  nth_error (particle_states self') i = Some row ->
  row <> [] ->
  (forall st, In st row -> (lo <= nth k st 0 <= hi)%R) ->
  lookup2 est i k = Some v ->
  (lo <= v <= hi)%R.
Proof.
  intros Hres Hm H Hrow Hne Hb Hv.
  destruct (@forward_without_resampling_estimate _ _ _ _ _ _ Hres H)
    as (Hest & Hset & Hs & Hw & w & Hnorm).
  pose proof Hset as (Hsd & _ & _ & _ & _ & _ & Hmeth & _).
  rewrite Hsd in Hs. rewrite Hmeth in Hm.
  destruct (@estimate_weighted_average_run _ _ _ Hm Hs Hw) as [est0 [Hrun Hval]].
  rewrite Hrun in Hest. inversion Hest; subst est0.
  assert (Hi : i < length (particle_states self)).
  { destruct Hs as [HN _]. rewrite <- HN. apply nth_error_Some. congruence. }
  destruct (nth_error (particle_log_weights self') i) as [wrow|] eqn:Ew.
  2:{ apply nth_error_None in Ew. destruct Hw as [HN _]. lia. }
  rewrite (Hval i k row wrow Hrow Ew) in Hv.
  destruct (k <? state_dim self'); [|discriminate].
  inversion Hv; subst v; clear Hv.
  assert (Hlen : length row = length wrow).
  { apply nth_error_In in Hrow, Ew.
    destruct Hs as [_ Hs]. destruct (Hs row Hrow) as [-> _].
    destruct Hw as [_ Hw]. now rewrite (Hw wrow Ew). }
  assert (Hsum : rsum (map exp wrow) = 1%R).
  { apply (@normalized_rows w wrow).
    - rewrite <- Hnorm. eapply nth_error_In; eauto.
    - intros ->. destruct row; [congruence|discriminate]. }
  pose proof (@weighted_sum_bounds (fun st => nth k st 0%R) lo hi row wrow Hb) as Hbound.
  rewrite Hlen, firstn_all, Hsum in Hbound. lra.
Qed.

(** *** Propagation *)

Lemma nth_error_concat_rect {A : Type} (M : nat) (t : list (list A)) :
  (forall row, In row t -> length row = M) ->
  forall i j, j < M -> nth_error (concat t) (i * M + j) = lookup2 t i j.
Proof.
  unfold lookup2.
  induction t as [|r t IH]; intros H i j Hj; simpl.
  - destruct i; now destruct (_ + j).
  - assert (Hr : length r = M) by (apply H; now left).
    destruct i as [|i]; simpl.
    + apply nth_error_app1. lia.
    + rewrite nth_error_app2 by lia.
      replace (M + i * M + j - length r) with (i * M + j) by lia.
      apply IH; [|assumption]. intros row Hrow. apply H. now right.
Qed.

Lemma nth_error_repeat_interleave {A : Type} (M : nat) (l : list A) :
  forall i j, j < M ->
    nth_error (repeat_interleave M l) (i * M + j) = nth_error l i.
Proof.
  unfold repeat_interleave.
  induction l as [|c l IH]; intros i j Hj; simpl.
  - destruct i; now destruct (_ + j).
  - destruct i as [|i]; simpl.
    + rewrite nth_error_app1 by (rewrite repeat_length; lia).
      now apply nth_error_repeat.
    + rewrite nth_error_app2 by (rewrite repeat_length; lia).
      rewrite repeat_length.
      replace (M + i * M + j - M) with (i * M + j) by lia.
      now apply IH.
Qed.

Lemma lookup2_chunks {A : Type} (M : nat) :
  forall (N : nat) (l : list A) (i j : nat),
    i < N -> j < M ->
    lookup2 (chunks N M l) i j = nth_error l (i * M + j).
Proof.
  unfold lookup2.
  induction N as [|N IH]; intros l i j Hi Hj; [lia|]. simpl.
  destruct i as [|i]; simpl.
  - rewrite nth_error_firstn. destruct (Nat.ltb_spec j M); [reflexivity|lia].
  - rewrite IH by lia. rewrite nth_error_skipn. f_equal. lia.
Qed.

Lemma lookup3_lookup2 {A : Type} (t : list (list (list A))) (i j k : nat) :
  lookup3 t i j k
  = match lookup2 t i j with Some s => nth_error s k | None => None end.
Proof. unfold lookup3, lookup2. now destruct (nth_error t i). Qed.

(** The entries of a view, in row-major order. *)
Lemma lookup3_view {A : Type} (n m d : nat) (flat : list A) (i j k : nat) :
  i < n -> j < m -> k < d ->
  lookup3 (chunks n m (chunks (n * m) d flat)) i j k
  = nth_error flat ((i * m + j) * d + k).
Proof.
  intros Hi Hj Hk. rewrite lookup3_lookup2, lookup2_chunks by assumption.
  assert (Hp : i * m + j < n * m) by nia.
  change (lookup2 (chunks (n * m) d flat) (i * m + j) k
          = nth_error flat ((i * m + j) * d + k)).
  now apply lookup2_chunks.
Qed.

(** A propagation that returned stored the reshaped draw. *)
Lemma propagate_Ok_inv (rng : Random) (controls : list Ctrl) (N M : nat)
  (self self' : ParticleFilter Ctrl Obs) :
  propagate rng controls N M self = (Ok tt, self') ->
  exists predicted scale samples states',
    dm_forward (dynamics_model self) (flatten01 (particle_states self))
      (repeat_interleave M controls) = Ok (predicted, scale)
    /\ rsample rng predicted scale = Ok samples
    /\ view3 N M (state_dim self) samples = Ok states'
    /\ self' = set_particle_states states' self.
Proof.
  unfold propagate, mbind, read, lift, assign, massert, rassert.
  intros H.
  destruct (dm_forward _ _ _) as [[predicted scale]|e0] eqn:Edyn;
    [|discriminate].
  destruct (rsample rng predicted scale) as [samples|e0] eqn:Edraw;
    [|discriminate].
  destruct (view3 N M (state_dim self) samples) as [states'|e0] eqn:Eview;
    [|discriminate].
  simpl in H.
  destruct (has_shape3b _ N M (state_dim self)); [|discriminate].
  inversion H. exists predicted, scale, samples, states'.
  split; [reflexivity|]. split; [exact Edraw|].
  split; [exact Eview|reflexivity].
Qed.

(** X14: the propagation lines particles, controls and draws up by the
    flattened position [i * M + j]: the dynamics model receives particle
    [j] of row [i] at that position together with the control of row [i];
    the belief left has shape [(N, M, state_dim)] and its entries are the
    entries of the draw in row-major order, so that, when the draw has one
    row per particle, the row at that position becomes particle [j] of row
    [i]; the weights are not touched. *)
Theorem propagate_layout (rng : Random) (controls : list Ctrl) (N M : nat)
  (self self' : ParticleFilter Ctrl Obs) :
  has_shape3 (particle_states self) N M (state_dim self) ->
  propagate rng controls N M self = (Ok tt, self') ->
  exists predicted scale samples,
    dm_forward (dynamics_model self) (flatten01 (particle_states self))
      (repeat_interleave M controls) = Ok (predicted, scale)
    /\ rsample rng predicted scale = Ok samples
    /\ has_shape3 (particle_states self') N M (state_dim self)
    /\ particle_log_weights self' = particle_log_weights self
    /\ forall i j, i < N -> j < M ->
         nth_error (flatten01 (particle_states self)) (i * M + j)
         = lookup2 (particle_states self) i j
         /\ nth_error (repeat_interleave M controls) (i * M + j)
            = nth_error controls i
         /\ (forall k, k < state_dim self ->
               lookup3 (particle_states self') i j k
               = nth_error (concat samples) ((i * M + j) * state_dim self + k))
         /\ (has_shape2 samples (N * M) (state_dim self) ->
             lookup2 (particle_states self') i j
             = nth_error samples (i * M + j)).
Proof.
  intros [HN Hrows] H.
  apply propagate_Ok_inv in H.
  destruct H as (predicted & scale & samples & states' & Hdyn & Hdraw
                 & Hview & ->).
  exists predicted, scale, samples. split; [exact Hdyn|]. split; [exact Hdraw|].
  split; [simpl; now apply view3_shape with (t := samples)|].
  split; [reflexivity|].
  intros i j Hi Hj. split; [|split; [|split]].
  - apply nth_error_concat_rect; [|assumption].
    intros row Hrow. now apply Hrows.
  - now apply nth_error_repeat_interleave.
  - intros k Hk. simpl. unfold view3 in Hview.
    destruct (length (concat samples) =? N * M * state_dim self);
      [|discriminate].
    inversion Hview. now apply lookup3_view.
  - intros Hshape. simpl. rewrite (@view3_rows _ _ _ _ Hshape) in Hview.
    inversion Hview. now apply lookup2_chunks.
Qed.

(** *** A timestep that returns *)







End Step.

(** ** Instances of the further properties on the concrete filter *)

Lemma forward_keeps_settings_witness :
  same_settings Example.plain_filter
    (snd (forward Example.fixed_draws [tt] [tt] Example.plain_filter)).
Proof.
  apply (@forward_keeps_settings unit unit Example.fixed_draws [tt] [tt]
           Example.plain_filter _
           (fst (forward Example.fixed_draws [tt] [tt] Example.plain_filter))).
  apply surjective_pairing.
Defined.

Lemma forward_postconditions_witness :
  exists est self',
    forward Example.fixed_draws [tt] [tt] Example.plain_filter = (Ok est, self')
    /\ has_shape2 est 1 1
    /\ has_shape3 (particle_states self') 1 2 1.
Proof.
  assert (Hrun : exists est self',
             forward Example.fixed_draws [tt] [tt] Example.plain_filter
             = (Ok est, self')).
  { do 2 eexists. run_filter. reflexivity. }
  destruct Hrun as (est & self' & Hrun).
  destruct (@forward_postconditions unit unit Example.fixed_draws [tt] [tt]
              Example.plain_filter self' est Hrun)
    as (_ & _ & He & Hs & _).
  exists est, self'. split; [exact Hrun|]. split; [exact He|exact Hs].
Defined.

Lemma forward_without_resampling_normalized_witness :
  exists est self' row,
    forward Example.fixed_draws [tt] [tt] Example.plain_filter = (Ok est, self')
    /\ In row (particle_log_weights self')
    /\ logsumexp row = 0%R.
Proof.
  assert (Hrun : exists est self',
             forward Example.fixed_draws [tt] [tt] Example.plain_filter
             = (Ok est, self')
             /\ exists row, In row (particle_log_weights self') /\ row <> []).
  { do 2 eexists. split; [run_filter; reflexivity|].
    eexists. split; [left; reflexivity|discriminate]. }
  destruct Hrun as (est & self' & Hrun & row & Hin & Hne).
  exists est, self', row. split; [exact Hrun|]. split; [exact Hin|].
  apply (@forward_without_resampling_normalized unit unit Example.fixed_draws
           [tt] [tt] Example.plain_filter self' est row);
    [reflexivity|exact Hrun|exact Hin|exact Hne].
Defined.

Lemma resampling_filter_runs :
  exists self',
    _resample Example.fixed_draws Example.resampling_filter = (Ok tt, self')
    /\ exists row, In row (particle_log_weights self').
Proof.
  eexists. split.
  - run_filter. destruct (Rlt_dec 1 1) as [Hlt|_]; [lra|].
    run_filter. reflexivity.
  - eexists. left. reflexivity.
Defined.

Lemma resample_draws_from_own_row_witness :
  exists self',
    _resample Example.fixed_draws Example.resampling_filter = (Ok tt, self')
    /\ has_shape3 (particle_states self') 1 4 1.
Proof.
  destruct resampling_filter_runs as (self' & Hrun & _).
  destruct (@resample_draws_from_own_row unit unit Example.fixed_draws
              Example.resampling_filter self' 1 2 1) as [Hs _].
  - apply has_shape3b_spec. reflexivity.
  - lia.
  - lia.
  - lia.
  - exact Hrun.
  - exists self'. split; [exact Hrun|exact Hs].
Defined.

Lemma resample_standard_row_sum_witness :
  exists self' row,
    _resample Example.fixed_draws Example.resampling_filter = (Ok tt, self')
    /\ In row (particle_log_weights self')
    /\ rsum (map exp row) = (INR 4 / INR 2)%R.
Proof.
  destruct resampling_filter_runs as (self' & Hrun & row & Hin).
  exists self', row. split; [exact Hrun|]. split; [exact Hin|].
  apply (@resample_standard_row_sum unit unit Example.fixed_draws
           Example.resampling_filter self' row).
  - simpl. lra.
  - simpl. lia.
  - exact Hrun.
  - exact Hin.
Defined.

Lemma resample_soft_count_mismatch_raises_witness :
  exists e,
    _resample Example.fixed_draws
      (Example.two_particles (Example.identity_dynamics 1)
         (Example.flat_measurement 1) 3 (Some true) (1 / 2) "weighted_average")
    = (Raise e,
       Example.two_particles (Example.identity_dynamics 1)
         (Example.flat_measurement 1) 3 (Some true) (1 / 2) "weighted_average").
Proof.
  apply (@resample_soft_count_mismatch_raises unit unit Example.fixed_draws).
  - simpl. lra.
  - discriminate.
  - simpl. lia.
Defined.

Lemma rebalance_indices_balanced_witness :
  exists indices,
    rebalance_indices Example.fixed_draws 1 2 (Z.of_nat 5) = Ok indices
    /\ forall row ix,
         In row indices -> ix < 2 ->
         5 / 2 <= count_occ Nat.eq_dec row ix <= 5 / 2 + 1
         /\ (5 mod 2 = 0 -> count_occ Nat.eq_dec row ix = 5 / 2).
Proof.
  apply (@rebalance_indices_balanced Example.fixed_draws 1 2 5).
  - lia.
  - apply Permutation_refl.
Defined.

Lemma rebalance_indices_shrink_distinct_witness :
  exists indices,
    rebalance_indices Example.fixed_draws 1 2 (Z.of_nat 1) = Ok indices
    /\ forall row,
         In row indices ->
         length row = 1 /\ NoDup row /\ forall ix, In ix row -> ix < 2.
Proof.
  apply (@rebalance_indices_shrink_distinct Example.fixed_draws 1 2 1).
  - lia.
  - apply Permutation_refl.
Defined.

Lemma rebalance_rejects_degenerate_counts_witness :
  exists e,
    rebalance Example.fixed_draws 1 0 1 Example.plain_filter
    = (Raise e, Example.plain_filter)
    /\ ((num_particles Example.plain_filter < 0)%Z
        /\ (exists msg, e = RuntimeError msg)
        \/ (0 <= num_particles Example.plain_filter)%Z
           /\ e = ZeroDivisionError).
Proof.
  apply (@rebalance_rejects_degenerate_counts unit unit Example.fixed_draws
           Example.plain_filter 1 0 1).
  left. reflexivity.
Defined.

Lemma initialize_beliefs_layout_witness :
  exists self',
    initialize_beliefs Example.fixed_draws [[0%R]] [[[1%R]]]
      (set_particle_log_weights [[0%R]]
         (set_particle_states [[[7%R]]] Example.new_filter))
    = (Ok tt, self')
    /\ lookup2 (particle_states self') 0 2
       = lookup2 [[[0%R]]; [[0%R]]; [[0%R]]] 2 0.
Proof.
  destruct (@initialize_beliefs_layout unit unit Example.fixed_draws
              Example.new_filter [[0%R]] [[[1%R]]]
              [[[0%R]]; [[0%R]]; [[0%R]]] 1 3)
    with (old_states := [[[7%R]]]) (old_weights := [[0%R]])
    as (self' & Hrun & _ & _ & Hlay).
  - apply has_shape2b_spec. reflexivity.
  - apply has_shape3b_spec. reflexivity.
  - reflexivity.
  - reflexivity.
  - apply has_shape3b_spec. reflexivity.
  - exists self'. split; [exact Hrun|]. apply Hlay; lia.
Defined.

Lemma initialize_beliefs_rejects_witness :
  exists e,
    initialize_beliefs Example.fixed_draws [[0%R; 0%R]] [[[1%R]]]
      Example.new_filter
    = (Raise e, Example.new_filter).
Proof.
  apply (@initialize_beliefs_rejects unit unit Example.fixed_draws
           Example.new_filter [[0%R; 0%R]] [[[1%R]]]).
  left. reflexivity.
Defined.

Lemma plain_filter_runs :
  exists est self' row wrow v,
    forward Example.fixed_draws [tt] [tt] Example.plain_filter = (Ok est, self')
    /\ nth_error (particle_states self') 0 = Some row
    /\ nth_error (particle_log_weights self') 0 = Some wrow
    /\ row = [[(0 + 1)%R]; [(4 + 1)%R]]
    /\ lookup2 est 0 0 = Some v.
Proof.
  do 5 eexists. split; [run_filter; reflexivity|].
  split; [reflexivity|]. split; [reflexivity|]. split; reflexivity.
Defined.

Lemma forward_estimate_is_weighted_mean_witness :
  exists est self' row wrow,
    forward Example.fixed_draws [tt] [tt] Example.plain_filter = (Ok est, self')
    /\ lookup2 est 0 0
       = Some (rsum (map (fun p => (nth 0 (fst p) 0 * exp (snd p))%R)
                       (combine row wrow))).
Proof.
  destruct plain_filter_runs as (est & self' & row & wrow & v & Hrun & Hrow
                                 & Hwrow & _).
  exists est, self', row, wrow. split; [exact Hrun|].
  apply (@forward_estimate_is_weighted_mean unit unit Example.fixed_draws
           [tt] [tt] Example.plain_filter self' est 0 0 row wrow);
    [reflexivity|reflexivity|exact Hrun|exact Hrow|exact Hwrow|simpl; lia].
Defined.

Lemma forward_estimate_within_particles_witness :
  exists est self' v,
    forward Example.fixed_draws [tt] [tt] Example.plain_filter = (Ok est, self')
    /\ lookup2 est 0 0 = Some v
    /\ (1 <= v <= 5)%R.
Proof.
  destruct plain_filter_runs as (est & self' & row & wrow & v & Hrun & Hrow
                                 & Hwrow & Hr & Hv).
  exists est, self', v. split; [exact Hrun|]. split; [exact Hv|].
  apply (@forward_estimate_within_particles unit unit Example.fixed_draws
           [tt] [tt] Example.plain_filter self' est 0 0 row 1 5 v);
    [reflexivity|reflexivity|exact Hrun|exact Hrow| | |exact Hv].
  - rewrite Hr. discriminate.
  - rewrite Hr. intros st [<-|[<-|[]]]; simpl; lra.
Defined.

Lemma propagate_layout_witness :
  exists self',
    propagate Example.fixed_draws [tt] 1 2 Example.plain_filter = (Ok tt, self')
    /\ has_shape3 (particle_states self') 1 2 1.
Proof.
  assert (Hrun : exists self',
             propagate Example.fixed_draws [tt] 1 2 Example.plain_filter
             = (Ok tt, self')).
  { eexists. run_filter. reflexivity. }
  destruct Hrun as (self' & Hrun).
  destruct (@propagate_layout unit unit Example.fixed_draws [tt] 1 2
              Example.plain_filter self') as (p & sc & sm & _ & _ & Hs & _).
  - apply has_shape3b_spec. reflexivity.
  - exact Hrun.
  - exists self'. split; [exact Hrun|exact Hs].
Defined.

